(** * VectorPainter: latent inversion, guided synthesis and stage-2 loss
      composition, embedded from [vectorpainter/painter/inversion.py] and
      [vectorpainter/pipelines/VectorPainter_pipeline.py].

    Conventions of the embedding.
    - Floating-point values are idealised as rationals [Q]; equalities that
      involve arithmetic are stated with [==] ([Qeq]).  Division by zero
      yields 0 in [Q] where floats yield inf or nan; no statement below
      depends on such a value.
    - A [torch.Tensor] is a nested list of scalars ([Tensor]); dimension 0 is
      the outermost list.  Device and dtype moves ([.to], [.clone],
      [.detach]) are identities.
    - Python exceptions are values of [exn]; a function that may raise
      returns a [result].
    - Gradients are not computed: an optimiser step is a function of the
      renderer state.  Of autograd only this is kept: whether the loss of a
      stage-2 iteration carries a gradient, because [loss.backward()]
      raises when it does not.
    - Shapes of the operands of pointwise operations and concatenations are
      those the pipeline produces; where torch would reject mismatched
      shapes the operations below truncate to the common part.
    - Objects of external libraries (the diffusion pipeline, its scheduler,
      the text encoders, the renderer) are records of the methods and
      attributes that the source calls or reads.
    - Of the output directory only the files that the pipeline reads back or
      that carry a stage result are kept: the progress logs ([plot_couple],
      [save_svg], video frames, [shutil.copy] of the style file, [print])
      are left out. *)

From Stdlib Require Import ZArith QArith Lia.
From stdpp Require Import base option list strings gmap.

Local Open Scope Z_scope.

(* ===================================================================== *)
(** ** Python exceptions and the error monad                              *)
(* ===================================================================== *)

Inductive exn : Type :=
| IndexError
| KeyError
| ValueError
| ZeroDivisionError
| UnboundLocalError
| FileNotFoundError
| AssertionError
| RuntimeError.

Inductive result (A : Type) : Type :=
| Ok (a : A)
| Raise (e : exn).
Arguments Ok {A} a.
Arguments Raise {A} e.

#[global] Instance result_ret : MRet result := fun A a => Ok a.
#[global] Instance result_bind : MBind result := fun A B f m =>
  match m with
  | Ok a => f a
  | Raise e => Raise e
  end.

Definition is_Ok {A} (r : result A) : Prop := exists a, r = Ok a.

(** [l[i]] for a Python sequence: negative indices count from the end,
    anything outside [-len, len) raises [IndexError]. *)
Definition py_index {A} (l : list A) (i : Z) : result A :=
  let n := Z.of_nat (length l) in
  let j := if i <? 0 then n + i else i in
  if (0 <=? j) && (j <? n)
  then match l !! Z.to_nat j with
       | Some a => Ok a
       | None => Raise IndexError
       end
  else Raise IndexError.

(** [l[i] = v] for a Python sequence. *)
Definition py_setitem {A} (l : list A) (i : Z) (v : A) : result (list A) :=
  let n := Z.of_nat (length l) in
  let j := if i <? 0 then n + i else i in
  if (0 <=? j) && (j <? n)
  then Ok (<[Z.to_nat j := v]> l)
  else Raise IndexError.

(** [a // b] on Python integers. *)
Definition py_floordiv (a b : Z) : result Z :=
  if b =? 0 then Raise ZeroDivisionError else Ok (a / b).

(** [range(n)]. *)
Definition py_range (n : Z) : list Z := map Z.of_nat (seq 0 (Z.to_nat n)).

(* ===================================================================== *)
(** ** Tensors                                                            *)
(* ===================================================================== *)

#[warnings="-register-all"]
Inductive Tensor : Type :=
| Sc (x : Q)
| Tn (xs : list Tensor).

Definition children (t : Tensor) : list Tensor :=
  match t with
  | Sc _ => []
  | Tn xs => xs
  end.

(** Size along dimension 0. *)
Definition tlen (t : Tensor) : nat := length (children t).

Definition is_scalar (t : Tensor) : bool :=
  match t with
  | Sc _ => true
  | Tn _ => false
  end.

(** Pointwise map. *)
Fixpoint tmap (f : Q -> Q) (t : Tensor) : Tensor :=
  match t with
  | Sc x => Sc (f x)
  | Tn xs => Tn (map (tmap f) xs)
  end.

(** Pointwise binary operation; a 0-dim operand is broadcast. *)
Fixpoint tmap2 (f : Q -> Q -> Q) (a b : Tensor) {struct a} : Tensor :=
  match a, b with
  | Sc x, Sc y => Sc (f x y)
  | Sc x, Tn _ => tmap (f x) b
  | Tn _, Sc y => tmap (fun x => f x y) a
  | Tn xs, Tn ys =>
      Tn ((fix go (xs ys : list Tensor) {struct xs} : list Tensor :=
             match xs, ys with
             | x :: xs', y :: ys' => tmap2 f x y :: go xs' ys'
             | _, _ => []
             end) xs ys)
  end.

Definition tadd : Tensor -> Tensor -> Tensor := tmap2 Qplus.
Definition tsub : Tensor -> Tensor -> Tensor := tmap2 Qminus.
(** scalar * tensor, tensor * scalar, tensor / scalar *)
Definition tscale (c : Q) (t : Tensor) : Tensor := tmap (Qmult c) t.
Definition tmuls (t : Tensor) (c : Q) : Tensor := tmap (fun x => (x * c)%Q) t.
Definition tdivs (t : Tensor) (c : Q) : Tensor := tmap (fun x => (x / c)%Q) t.

(** [torch.zeros_like] *)
Definition zeros_like (t : Tensor) : Tensor := tmap (fun _ => 0%Q) t.

(** Every entry is literally the scalar [0]. *)
Fixpoint all_zero (t : Tensor) : bool :=
  match t with
  | Sc x => Qeq_bool x 0
  | Tn xs => forallb all_zero xs
  end.

(** Same nesting and sizes. *)
Fixpoint same_shape (a b : Tensor) {struct a} : bool :=
  match a, b with
  | Sc _, Sc _ => true
  | Tn xs, Tn ys =>
      (fix go (xs ys : list Tensor) {struct xs} : bool :=
         match xs, ys with
         | [], [] => true
         | x :: xs', y :: ys' => same_shape x y && go xs' ys'
         | _, _ => false
         end) xs ys
  | _, _ => false
  end.

(** Equality of tensors up to the value of the rationals. *)
Fixpoint teqb (a b : Tensor) {struct a} : bool :=
  match a, b with
  | Sc x, Sc y => Qeq_bool x y
  | Tn xs, Tn ys =>
      (fix go (xs ys : list Tensor) {struct xs} : bool :=
         match xs, ys with
         | [], [] => true
         | x :: xs', y :: ys' => teqb x y && go xs' ys'
         | _, _ => false
         end) xs ys
  | _, _ => false
  end.

(** [torch.cat(ts)] along dimension 0. *)
Definition tcat0 (ts : list Tensor) : Tensor := Tn (concat (map children ts)).

(** [torch.cat((a, b), dim=-1)]: descend to the innermost dimension. *)
Fixpoint tcat_last (a b : Tensor) {struct a} : Tensor :=
  match a, b with
  | Tn xs, Tn ys =>
      if forallb is_scalar xs
      then Tn (xs ++ ys)
      else Tn ((fix go (xs ys : list Tensor) {struct xs} : list Tensor :=
                  match xs, ys with
                  | x :: xs', y :: ys' => tcat_last x y :: go xs' ys'
                  | _, _ => []
                  end) xs ys)
  | _, _ => a
  end.

(** [t.flip(0)] *)
Definition flip0 (t : Tensor) : Tensor :=
  match t with
  | Sc x => Sc x
  | Tn xs => Tn (reverse xs)
  end.

(** [t.unsqueeze(0)] *)
Definition unsqueeze0 (t : Tensor) : Tensor := Tn [t].

(** [a, b = t.chunk(2)]: chunks of size ceil(n/2) along dimension 0;
    a single chunk cannot be unpacked into two names. *)
Definition chunk2 (t : Tensor) : result (Tensor * Tensor) :=
  let xs := children t in
  let n := length xs in
  if Nat.eqb n 1 then Raise ValueError
  else let h := Nat.div (n + 1) 2 in
       Ok (Tn (take h xs), Tn (drop h xs)).

(** [t[i]] along dimension 0. *)
Definition tindex (t : Tensor) (i : Z) : result Tensor := py_index (children t) i.

(** [t[i] = v] along dimension 0 (in-place on the tensor [t]). *)
Definition tsetitem (t : Tensor) (i : Z) (v : Tensor) : result Tensor :=
  xs ← py_setitem (children t) i v; Ok (Tn xs).

(** [t.permute(2, 0, 1)] of a rank-3 tensor: out[c][h][w] = t[h][w][c]. *)
Definition permute_2_0_1 (t : Tensor) : Tensor :=
  let rows := children t in
  let nc := match rows with
            | r :: _ => match children r with
                        | px :: _ => tlen px
                        | [] => O
                        end
            | [] => O
            end in
  Tn (map (fun c =>
             Tn (map (fun row =>
                        Tn (map (fun px => default (Sc 0) (children px !! c))
                                (children row)))
                     rows))
          (seq 0 nc)).

(** A tensor whose dimension 0 has exactly [n] entries. *)
Definition is_batch (n : nat) (t : Tensor) : Prop :=
  exists xs, t = Tn xs /\ length xs = n.

(* ===================================================================== *)
(** ** The diffusion pipeline object, as the source uses it               *)
(* ===================================================================== *)

(** [model.scheduler]: the attributes read by [inversion.py]. *)
Record Scheduler : Type := {
  num_train_timesteps : Z;        (* scheduler.config.num_train_timesteps *)
  num_inference_steps : Z;
  timesteps : list Z;
  alphas_cumprod : list Q;
  final_alpha_cumprod : Q
}.

(** Output of a text encoder called with [output_hidden_states=True]. *)
Record TextEncoderOutput : Type := {
  out0 : Tensor;                  (* prompt_embeds[0] *)
  hidden_states : list Tensor
}.

Record StableDiffusionXLPipeline : Type := {
  tokenizer : string -> list Z;
  text_encoder : list Z -> TextEncoderOutput;
  tokenizer_2 : string -> list Z;
  text_encoder_2 : list Z -> TextEncoderOutput;
  projection_dim : Z;             (* text_encoder_2.config.projection_dim *)
  _get_add_time_ids : Z * Z -> Z * Z -> Z * Z -> Z -> Tensor;
  unet : Tensor -> Z -> Tensor -> gmap string Tensor -> Tensor;
  vae_encode_mean : Tensor -> Tensor;
  vae_decode : Tensor -> Tensor;
  scaling_factor : Q;             (* vae.config.scaling_factor *)
  scheduler : Scheduler;
  set_timesteps : Z -> Scheduler -> Scheduler
}.

(** [model.scheduler.set_timesteps(n)] mutates the scheduler of the model. *)
Definition scheduler_set_timesteps (model : StableDiffusionXLPipeline) (n : Z)
  : StableDiffusionXLPipeline :=
  {| tokenizer := tokenizer model;
     text_encoder := text_encoder model;
     tokenizer_2 := tokenizer_2 model;
     text_encoder_2 := text_encoder_2 model;
     projection_dim := projection_dim model;
     _get_add_time_ids := _get_add_time_ids model;
     unet := unet model;
     vae_encode_mean := vae_encode_mean model;
     vae_decode := vae_decode model;
     scaling_factor := scaling_factor model;
     scheduler := set_timesteps model n (scheduler model);
     set_timesteps := set_timesteps model |}.

(** A PIL image, as [np.array(image)]: height x width x channel, 0..255. *)
Definition Image : Type := Tensor.

(* ===================================================================== *)
(** ** painter/inversion.py                                               *)
(* ===================================================================== *)

Module inversion.
Section Inversion.

(** [x ** 0.5] on scalars. *)
Variable pow_half : Q -> Q.

Definition _get_text_embeddings (prompt : string)
    (tokenizer : string -> list Z)
    (text_encoder : list Z -> TextEncoderOutput) : result (Tensor * Tensor) :=
  let text_input_ids := tokenizer prompt in
  let prompt_embeds := text_encoder text_input_ids in
  let pooled_prompt_embeds := out0 prompt_embeds in
  prompt_embeds ← py_index (hidden_states prompt_embeds) (-2);
  if decide (prompt = "")
  then
    let negative_prompt_embeds := zeros_like prompt_embeds in
    let negative_pooled_prompt_embeds := zeros_like pooled_prompt_embeds in
    Ok (negative_prompt_embeds, negative_pooled_prompt_embeds)
  else Ok (prompt_embeds, pooled_prompt_embeds).

(** A dict lookup [d[k]]. *)
Definition py_getitem (d : gmap string Tensor) (k : string) : result Tensor :=
  match d !! k with
  | Some v => Ok v
  | None => Raise KeyError
  end.

Definition _encode_text_sdxl (model : StableDiffusionXLPipeline) (prompt : string)
  : result (gmap string Tensor * Tensor) :=
  '(prompt_embeds, pooled_prompt_embeds) ←
     _get_text_embeddings prompt (tokenizer model) (text_encoder model);
  '(prompt_embeds_2, pooled_prompt_embeds2) ←
     _get_text_embeddings prompt (tokenizer_2 model) (text_encoder_2 model);
  let prompt_embeds := tcat_last prompt_embeds prompt_embeds_2 in
  let text_encoder_projection_dim := projection_dim model in
  let add_time_ids :=
    _get_add_time_ids model (1024, 1024) (0, 0) (1024, 1024)
                      text_encoder_projection_dim in
  let added_cond_kwargs : gmap string Tensor :=
    <["text_embeds" := pooled_prompt_embeds2]>
      (<["time_ids" := add_time_ids]> ∅) in
  Ok (added_cond_kwargs, prompt_embeds).

Definition _encode_text_sdxl_with_negative (model : StableDiffusionXLPipeline)
    (prompt : string) : result (gmap string Tensor * Tensor) :=
  '(added_cond_kwargs, prompt_embeds) ← _encode_text_sdxl model prompt;
  '(added_cond_kwargs_uncond, prompt_embeds_uncond) ← _encode_text_sdxl model "";
  let prompt_embeds := tcat0 [prompt_embeds_uncond; prompt_embeds] in
  te_u ← py_getitem added_cond_kwargs_uncond "text_embeds";
  te_c ← py_getitem added_cond_kwargs "text_embeds";
  ti_u ← py_getitem added_cond_kwargs_uncond "time_ids";
  ti_c ← py_getitem added_cond_kwargs "time_ids";
  let added_cond_kwargs : gmap string Tensor :=
    <["text_embeds" := tcat0 [te_u; te_c]]>
      (<["time_ids" := tcat0 [ti_u; ti_c]]> ∅) in
  Ok (added_cond_kwargs, prompt_embeds).

Definition _encode_image (model : StableDiffusionXLPipeline) (image : Image)
  : Tensor :=
  let image := tdivs image 255 in
  let image := unsqueeze0 (permute_2_0_1 (tmap (fun x => (x * 2 - 1)%Q) image)) in
  let latent := tmuls (vae_encode_mean model image) (scaling_factor model) in
  latent.

(** First line of [_next_step]: the timestep whose alpha divides the
    sample, [min(timestep - num_train_timesteps // num_inference_steps, 999)]. *)
Definition _next_step_timestep (sch : Scheduler) (timestep : Z) : result Z :=
  ratio ← py_floordiv (num_train_timesteps sch) (num_inference_steps sch);
  Ok (Z.min (timestep - ratio) 999).

(** Second statement of [_next_step]: the table entry when the timestep is
    non-negative, the boundary value otherwise. *)
Definition _next_step_alpha_prod_t (sch : Scheduler) (timestep : Z) : result Q :=
  if 0 <=? timestep
  then py_index (alphas_cumprod sch) timestep
  else Ok (final_alpha_cumprod sch).

Definition _next_step (model : StableDiffusionXLPipeline) (model_output : Tensor)
    (timestep : Z) (sample : Tensor) : result Tensor :=
  let sch := scheduler model in
  let next_timestep := timestep in
  timestep ← _next_step_timestep sch timestep;
  alpha_prod_t ← _next_step_alpha_prod_t sch timestep;
  alpha_prod_t_next ← py_index (alphas_cumprod sch) next_timestep;
  let beta_prod_t := (1 - alpha_prod_t)%Q in
  let next_original_sample :=
    tdivs (tsub sample (tscale (pow_half beta_prod_t) model_output))
          (pow_half alpha_prod_t) in
  let next_sample_direction :=
    tscale (pow_half (1 - alpha_prod_t_next)%Q) model_output in
  let next_sample :=
    tadd (tscale (pow_half alpha_prod_t_next) next_original_sample)
         next_sample_direction in
  Ok next_sample.

Definition _get_noise_pred (model : StableDiffusionXLPipeline) (latent : Tensor)
    (t : Z) (context : Tensor) (guidance_scale : Q)
    (added_cond_kwargs : gmap string Tensor) : result Tensor :=
  let latents_input := tcat0 [latent; latent] in
  let noise_pred := unet model latents_input t context added_cond_kwargs in
  '(noise_pred_uncond, noise_prediction_text) ← chunk2 noise_pred;
  let noise_pred :=
    tadd noise_pred_uncond
         (tscale guidance_scale (tsub noise_prediction_text noise_pred_uncond)) in
  Ok noise_pred.

(** Body of the [for] loop of [_ddim_loop] at index [i]. *)
Definition _ddim_loop_body (model : StableDiffusionXLPipeline)
    (text_embedding : Tensor) (guidance_scale : Q)
    (added_cond_kwargs : gmap string Tensor) (i : Z) (latent : Tensor)
  : result Tensor :=
  let ts := timesteps (scheduler model) in
  t ← py_index ts (Z.of_nat (length ts) - i - 1);
  noise_pred ← _get_noise_pred model latent t text_embedding guidance_scale
                               added_cond_kwargs;
  _next_step model noise_pred t latent.

(** The [for] loop of [_ddim_loop], threading [latent] and [all_latent]. *)
Fixpoint _ddim_loop_for (model : StableDiffusionXLPipeline)
    (text_embedding : Tensor) (guidance_scale : Q)
    (added_cond_kwargs : gmap string Tensor)
    (idx : list Z) (latent : Tensor) (all_latent : list Tensor)
  : result (list Tensor) :=
  match idx with
  | [] => Ok all_latent
  | i :: idx' =>
      latent ← _ddim_loop_body model text_embedding guidance_scale
                               added_cond_kwargs i latent;
      _ddim_loop_for model text_embedding guidance_scale added_cond_kwargs
                     idx' latent (all_latent ++ [latent])
  end.

Definition _ddim_loop (model : StableDiffusionXLPipeline) (z0 : Tensor)
    (prompt : string) (guidance_scale : Q) : result Tensor :=
  let all_latent := [z0] in
  '(added_cond_kwargs, text_embedding) ←
     _encode_text_sdxl_with_negative model prompt;
  let latent := z0 in
  all_latent ← _ddim_loop_for model text_embedding guidance_scale
                 added_cond_kwargs
                 (py_range (num_inference_steps (scheduler model)))
                 latent all_latent;
  Ok (flip0 (tcat0 all_latent)).

(** The callback closure built by [make_inversion_callback zts offset]. *)
Definition callback_on_step_end (zts : Tensor) (offset : Z)
    (i : Z) (t : Z) (callback_kwargs : gmap string Tensor)
  : result (gmap string Tensor) :=
  latents ← py_getitem callback_kwargs "latents";
  z ← tindex zts (Z.max (offset + 1) (i + 1));
  latents ← tsetitem latents 0 z;
  Ok (<["latents" := latents]> ∅).

Definition make_inversion_callback (zts : Tensor) (offset : Z)
  : result (Tensor * (Z -> Z -> gmap string Tensor -> result (gmap string Tensor))) :=
  zT ← tindex zts offset;
  Ok (zT, callback_on_step_end zts offset).

Definition ddim_inversion (model : StableDiffusionXLPipeline) (x0 : Image)
    (prompt : string) (num_inv_steps : Z) (guidance_scale : Q)
  : result Tensor :=
  let z0 := _encode_image model x0 in
  let model := scheduler_set_timesteps model num_inv_steps in
  zs ← _ddim_loop model z0 prompt guidance_scale;
  Ok zs.

End Inversion.
End inversion.

(* ===================================================================== *)
(** ** pipelines/VectorPainter_pipeline.py                                *)
(* ===================================================================== *)

(** [x_cfg.imit_stage] / [x_cfg.synth_stage] *)
Record StageCfg : Type := {
  lr : Q;
  color_lr : Q;
  width_lr : Q;
  num_iter : Z;
  lr_scheduler : bool;
  decay_steps : Z
}.

(** The entries of [x_cfg] that the pipeline reads. *)
Record XCfg : Type := {
  imit_stage : StageCfg;
  synth_stage : StageCfg;
  random_init : bool;
  cfg_num_inference_steps : Z;     (* x_cfg.num_inference_steps *)
  cfg_guidance_scale : Q;          (* x_cfg.guidance_scale *)
  l2_loss : Q;
  struct_loss_weight : Q;
  struct_loss : string;
  pos_loss_weight : Q;
  pos_type : string
}.

(** One progress-bar description of stage 2: the reported breakdown. *)
Record LossReport : Type := {
  l_total : Q;
  l_recon : Q;
  l_struct : Q;
  l_pos : Q
}.

(** [negative_prompt] is either one string or a list of strings. *)
Inductive NegPrompt : Type :=
| NegStr (s : string)
| NegList (l : list string).

Definition StepCallback : Type :=
  Z -> Z -> gmap string Tensor -> result (gmap string Tensor).

(** The collaborators of the pipeline that are not part of these files:
    the renderer with its optimizer ([Painter], [SketchPainterOptimizer];
    [R] is their joint state), the loss functions of [vectorpainter.painter],
    the image helpers, the captioning model and the diffusion pipeline. *)
Record Collaborators (R : Type) : Type := {
  (* Painter *)
  new_painter : Tensor -> R;
  init_canvas : bool -> R -> R * Tensor;
  get_image : R -> Tensor;
  style_img : R -> Tensor;
  get_point_parameters : R -> Tensor;
  (* SketchPainterOptimizer: init_optimizers; zero_grad_, the gradients of
     the loss (a function of the renderer) and step_; update_lr.  Whether
     backward itself succeeds is decided in the pipeline, see [backward]. *)
  init_optimizers : StageCfg -> R -> R;
  optimizer_step : (R -> result Q) -> R -> R;
  update_lr : Z -> Z -> R -> R;
  (* losses *)
  mse_loss : Tensor -> Tensor -> Q;
  SSIM : Tensor -> Tensor -> Q;
  MSSSIM : Tensor -> Tensor -> Q;
  SinkhornLoss : Tensor -> Tensor -> Q;
  get_relative_pos : Tensor -> Tensor;
  bezier_curve_loss : Tensor -> Tensor -> Q;
  (* images *)
  to_png : Tensor -> Image;                  (* what plot_img writes *)
  to_grid_png : Tensor -> Image;             (* what save_image writes *)
  convert_resize : Image -> Image;           (* .convert("RGB").resize((1024, 1024)) *)
  convert_rgb : Image -> Image;              (* .convert("RGB") *)
  tv_resize : Z * Z -> Image -> Image;       (* transforms.Resize(size) *)
  tv_to_tensor : Image -> Tensor;            (* transforms.ToTensor() *)
  tv_center_crop : Z -> Tensor -> Tensor;    (* transforms.CenterCrop(n) *)
  (* BLIP-2 captioning: generate, batch_decode, strip *)
  blip2_caption : Image -> string;
  (* diffusion *)
  init_sdxl_pipeline : StableDiffusionXLPipeline;
  randn_sample : nat -> Tensor;              (* k-th sample drawn from g_device *)
  (* ldm_pipe(prompt=, negative_prompt=, ip_adapter_image=,
     num_inference_steps=, guidance_scale=, latents=,
     callback_on_step_end=, output_type='pt')[0] *)
  ldm_pipe_call : StableDiffusionXLPipeline -> list string -> NegPrompt ->
                  Image -> Z -> Q -> Tensor -> StepCallback -> result Tensor
}.
Arguments new_painter {R} _ _.
Arguments init_canvas {R} _ _ _.
Arguments get_image {R} _ _.
Arguments style_img {R} _ _.
Arguments get_point_parameters {R} _ _.
Arguments init_optimizers {R} _ _ _.
Arguments optimizer_step {R} _ _ _.
Arguments update_lr {R} _ _ _ _.
Arguments mse_loss {R} _ _ _.
Arguments SSIM {R} _ _ _.
Arguments MSSSIM {R} _ _ _.
Arguments SinkhornLoss {R} _ _ _.
Arguments get_relative_pos {R} _ _.
Arguments bezier_curve_loss {R} _ _ _.
Arguments to_png {R} _ _.
Arguments to_grid_png {R} _ _.
Arguments convert_resize {R} _ _.
Arguments convert_rgb {R} _ _.
Arguments tv_resize {R} _ _ _.
Arguments tv_to_tensor {R} _ _.
Arguments tv_center_crop {R} _ _ _.
Arguments blip2_caption {R} _ _.
Arguments init_sdxl_pipeline {R} _.
Arguments randn_sample {R} _ _.
Arguments ldm_pipe_call {R} _ _ _ _ _ _ _ _ _.

(** The mutable part of [self] together with the output directory. *)
Record Self : Type := {
  step : Z;
  files : gmap string Image;
  imit_reports : list Q;           (* l_total of every stage-1 iteration *)
  reports : list LossReport;       (* breakdown of every stage-2 iteration *)
  captioned : list Image           (* images handed to the captioning model *)
}.

Definition set_step (s : Self) (n : Z) : Self :=
  {| step := n; files := files s; imit_reports := imit_reports s;
     reports := reports s; captioned := captioned s |}.
Definition write_file (s : Self) (path : string) (img : Image) : Self :=
  {| step := step s; files := <[path := img]> (files s);
     imit_reports := imit_reports s; reports := reports s;
     captioned := captioned s |}.
Definition add_imit_report (s : Self) (l : Q) : Self :=
  {| step := step s; files := files s; imit_reports := imit_reports s ++ [l];
     reports := reports s; captioned := captioned s |}.
Definition add_report (s : Self) (r : LossReport) : Self :=
  {| step := step s; files := files s; imit_reports := imit_reports s;
     reports := reports s ++ [r]; captioned := captioned s |}.
Definition add_captioned (s : Self) (img : Image) : Self :=
  {| step := step s; files := files s; imit_reports := imit_reports s;
     reports := reports s; captioned := captioned s ++ [img] |}.

(** [dir / name] *)
Definition path_join (dir name : string) : string := dir +:+ "/" +:+ name.

(** [Image.open(path)] *)
Definition image_open (s : Self) (path : string) : result Image :=
  match files s !! path with
  | Some img => Ok img
  | None => Raise FileNotFoundError
  end.

(** [w > 0] on a float. *)
Definition Qpositive (w : Q) : bool := negb (Qle_bool w 0).

Module pipeline.
Section Pipeline.

Context {R : Type}.
Variable pow_half : Q -> Q.
Variable env : Collaborators R.
Variable x_cfg : XCfg.
Variable result_path : string.
Variables canvas_width canvas_height : Z.

Definition style_dir : string := path_join result_path "style_image".
Definition sd_sample_dir : string := path_join result_path "sd_sample".

(** Modelled from the spec: [plot_img] of [vectorpainter.utils.plot] is not
    among the source files.  Raster renders are image files under the run
    directory (section 6), and [style_inversion] reads [sd_sample/target.png]
    back right after [plot_img(outputs[-1], sd_sample_dir, fname='target')]:
    the tensor is written as [dir/fname.png]. *)
Definition plot_img (s : Self) (t : Tensor) (dir fname : string) : Self :=
  write_file s (path_join dir (fname +:+ ".png")) (to_png env t).

(** [save_image(t, fp=path)] *)
Definition save_image (s : Self) (t : Tensor) (path : string) : Self :=
  write_file s path (to_grid_png env t).

Definition img_to_tensor (img : Image) : Tensor :=
  let t := tv_to_tensor env (tv_resize env (canvas_width, canvas_height) img) in
  let t := unsqueeze0 t in
  if canvas_height =? canvas_width
  then tv_center_crop env canvas_height t
  else t.

Definition load_img_to_tensor (s : Self) (file_path : string) : result Tensor :=
  if decide (is_Some (files s !! file_path))
  then pil_img ← image_open s file_path;
       Ok (img_to_tensor (convert_rgb env pil_img))
  else Raise AssertionError.

(** [n] passes through the body of the [while] loop of
    [brushstroke_imitation]. *)
Fixpoint imitation_iterations (n : nat) (renderer : R) (s : Self) : R * Self :=
  match n with
  | O => (renderer, s)
  | S n' =>
      let raster_sketch := get_image env renderer in
      let loss := mse_loss env (style_img env renderer) raster_sketch in
      let renderer :=
        optimizer_step env
          (fun r => Ok (mse_loss env (style_img env r) (get_image env r)))
          renderer in
      let renderer :=
        if lr_scheduler (imit_stage x_cfg)
        then update_lr env (step s) (decay_steps (imit_stage x_cfg)) renderer
        else renderer in
      let s := add_imit_report s loss in
      let s := set_step s (step s + 1) in
      imitation_iterations n' renderer s
  end.

(** [while self.step < total_iter] with [self.step += 1] at the end of the
    body runs [max 0 (total_iter - self.step)] times. *)
Definition brushstroke_imitation (renderer : R) (s : Self) : (R * string) * Self :=
  let renderer := init_optimizers env (imit_stage x_cfg) renderer in
  let total_iter := num_iter (imit_stage x_cfg) in
  let '(renderer, s) :=
    imitation_iterations (Z.to_nat (total_iter - step s)) renderer s in
  let style_result := get_image env renderer in
  let recon_style_fpath := path_join result_path "style_result.png" in
  let s := plot_img s style_result result_path "style_result" in
  ((renderer, recon_style_fpath), s).

(** [x.clamp(0, 1)] on the rational idealisation of a scalar.  A NaN of the
    float tensor has no counterpart here; no statement relies on the range
    of the clamped values. *)
Definition clamp01 (x : Q) : Q :=
  if Qle_bool x 0 then 0%Q else if Qle_bool 1 x then 1%Q else x.

Definition decode_and_save_latent (zT : Tensor) (ldm_pipe : StableDiffusionXLPipeline)
    (fname : string) (s : Self) : Self :=
  let zT := tdivs zT (scaling_factor ldm_pipe) in
  let zT := unsqueeze0 zT in
  let decoded := vae_decode ldm_pipe zT in
  let decoded := tmap (fun x => clamp01 (x / 2 + (1 # 2))%Q) decoded in
  plot_img s decoded sd_sample_dir fname.

Definition captioning (image : Image) (s : Self) : string * Self :=
  (blip2_caption env image, add_captioned s image).

(** Line 213 of [style_inversion]. *)
Definition synthesis_prompts (style_prompt prompt : string) : list string :=
  [style_prompt; prompt; prompt].

(** Lines 214-219: one random latent per prompt, slots 0 and 1 replaced. *)
Definition synthesis_latents (prompts : list string) (zT : Tensor) : result Tensor :=
  let latents := Tn (map (randn_sample env) (seq 0 (length prompts))) in
  latents ← tsetitem latents 0 zT;
  latents ← tsetitem latents 1 zT;
  Ok latents.

(** Lines 220-221. *)
Definition synthesis_negative (prompts : list string) (negative_prompt : NegPrompt)
  : NegPrompt :=
  match negative_prompt with
  | NegStr n => NegList (replicate (length prompts) n)
  | NegList l => NegList l
  end.

(** Lines 213-249 of [style_inversion]: the guided generation and the choice
    of the target among its outputs. *)
Definition guided_synthesis (ldm_pipe : StableDiffusionXLPipeline)
    (prompt style_prompt : string) (negative_prompt : NegPrompt)
    (init_img : Image) (zT : Tensor) (inversion_callback : StepCallback)
    (s : Self) : result (Image * Self) :=
  let prompts := synthesis_prompts style_prompt prompt in
  latents ← synthesis_latents prompts zT;
  let negative_prompt := synthesis_negative prompts negative_prompt in
  outputs ← ldm_pipe_call env ldm_pipe prompts negative_prompt init_img
              (cfg_num_inference_steps x_cfg) (cfg_guidance_scale x_cfg)
              latents inversion_callback;
  let gen_file := path_join sd_sample_dir "samples.png" in
  let s := save_image s outputs gen_file in
  let target_file := path_join sd_sample_dir "target.png" in
  last_output ← tindex outputs (-1);
  let s := plot_img s last_output sd_sample_dir "target" in
  target ← image_open s target_file;
  Ok (target, s).

Definition style_inversion (prompt : string) (negative_prompt : NegPrompt)
    (style_prompt : option string) (init_fpath : string) (s : Self)
  : result (Image * Self) :=
  init_img ← image_open s init_fpath;
  let init_img := convert_resize env init_img in
  let '(style_prompt, s) :=
    match style_prompt with
    | Some p => (p, s)
    | None => captioning init_img s
    end in
  let ldm_pipe := init_sdxl_pipeline env in
  let x0 := init_img in
  let guidance_scale := 2%Q in
  zts ← inversion.ddim_inversion pow_half ldm_pipe x0 style_prompt
          (cfg_num_inference_steps x_cfg) guidance_scale;
  let ldm_pipe := scheduler_set_timesteps ldm_pipe (cfg_num_inference_steps x_cfg) in
  '(zT, inversion_callback) ← inversion.make_inversion_callback zts 5;
  let s := decode_and_save_latent zT ldm_pipe "decode_zT" s in
  guided_synthesis ldm_pipe prompt style_prompt negative_prompt init_img zT
                   inversion_callback s.

(** Lines 302-328: the three terms and their sum for one iteration.
    [l_struct_fn] is bound only when [struct_loss_weight > 0]. *)
Definition synthesis_losses (l_struct_fn : option (Tensor -> Tensor -> Q))
    (sinkhorn_loss_fn : Tensor -> Tensor -> Q)
    (inputs init_relative_pos init_curves : Tensor)
    (renderer : R) (raster_sketch : Tensor) : result LossReport :=
  let l_recon :=
    if Qpositive (l2_loss x_cfg)
    then (mse_loss env raster_sketch inputs * l2_loss x_cfg)%Q
    else 0%Q in
  l_struct ←
    (if Qpositive (struct_loss_weight x_cfg)
     then
       fn ← match l_struct_fn with
            | Some f => Ok f
            | None => Raise UnboundLocalError
            end;
       if decide (struct_loss x_cfg ∈ ["ssim"; "msssim"])
       then Ok (1 - fn raster_sketch inputs)%Q
       else Ok (fn raster_sketch inputs)
     else Ok 0%Q);
  let l_rel_pos :=
    if Qpositive (pos_loss_weight x_cfg)
    then
      if decide (pos_type x_cfg = "pos")
      then (mse_loss env (get_relative_pos env (get_point_parameters env renderer))
                     init_relative_pos * pos_loss_weight x_cfg)%Q
      else if decide (pos_type x_cfg = "bez")
      then (bezier_curve_loss env (get_point_parameters env renderer) init_curves
            * pos_loss_weight x_cfg)%Q
      else if decide (pos_type x_cfg = "sinkhorn")
      then (sinkhorn_loss_fn raster_sketch (style_img env renderer)
            * pos_loss_weight x_cfg)%Q
      else 0%Q
    else 0%Q in
  let loss := (l_recon + l_struct + l_rel_pos)%Q in
  Ok {| l_total := loss; l_recon := l_recon; l_struct := l_struct;
        l_pos := l_rel_pos |}.

(** Lines 277-286: the structural metric chosen at setup. *)
Definition init_structure_loss : option (Tensor -> Tensor -> Q) :=
  if Qpositive (struct_loss_weight x_cfg)
  then
    if decide (struct_loss x_cfg = "ssim") then Some (SSIM env)
    else if decide (struct_loss x_cfg = "msssim") then Some (MSSSIM env)
    else Some (fun _ _ => 0%Q)
  else None.

(** Autograd, for the loss of line 328.  A term computed from the raster or
    from the point parameters of the renderer carries a gradient;
    [torch.tensor(0.)], which is what a disabled term, the metric of an
    unknown [struct_loss] and an unmatched [pos_type] leave behind, carries
    none; a sum carries one as soon as one operand does. *)
Definition l_recon_requires_grad : bool := Qpositive (l2_loss x_cfg).

Definition l_struct_requires_grad : bool :=
  Qpositive (struct_loss_weight x_cfg)
  && bool_decide (struct_loss x_cfg ∈ ["ssim"; "msssim"]).

Definition l_rel_pos_requires_grad : bool :=
  Qpositive (pos_loss_weight x_cfg)
  && bool_decide (pos_type x_cfg ∈ ["pos"; "bez"; "sinkhorn"]).

Definition loss_requires_grad : bool :=
  l_recon_requires_grad || l_struct_requires_grad || l_rel_pos_requires_grad.

(** [loss.backward()]: a tensor without gradient cannot be differentiated. *)
Definition backward (requires_grad : bool) : result unit :=
  if requires_grad then Ok tt else Raise RuntimeError.

(** [n] passes through the body of the [while] loop of
    [synthesis_with_style_supervision]. *)
Fixpoint synthesis_iterations (n : nat)
    (l_struct_fn : option (Tensor -> Tensor -> Q))
    (sinkhorn_loss_fn : Tensor -> Tensor -> Q)
    (inputs init_relative_pos init_curves : Tensor)
    (renderer : R) (s : Self) : result (R * Self) :=
  match n with
  | O => Ok (renderer, s)
  | S n' =>
      let raster_sketch := get_image env renderer in
      rep ← synthesis_losses l_struct_fn sinkhorn_loss_fn inputs
              init_relative_pos init_curves renderer raster_sketch;
      _ ← backward loss_requires_grad;
      let renderer :=
        optimizer_step env
          (fun r => rep ← synthesis_losses l_struct_fn sinkhorn_loss_fn inputs
                            init_relative_pos init_curves r (get_image env r);
                    Ok (l_total rep))
          renderer in
      let renderer :=
        if lr_scheduler (synth_stage x_cfg)
        then update_lr env (step s) (decay_steps (synth_stage x_cfg)) renderer
        else renderer in
      let s := add_report s rep in
      let s := set_step s (step s + 1) in
      synthesis_iterations n' l_struct_fn sinkhorn_loss_fn inputs
                           init_relative_pos init_curves renderer s
  end.

(** Lines 258-366: everything of [synthesis_with_style_supervision] after
    the target has been obtained. *)
Definition synthesis_optimization (inputs : Tensor) (renderer : R) (s : Self)
  : result (R * Self) :=
  let init_relative_pos := get_relative_pos env (get_point_parameters env renderer) in
  let init_curves := get_point_parameters env renderer in
  let renderer := init_optimizers env (synth_stage x_cfg) renderer in
  let l_struct_fn := init_structure_loss in
  let sinkhorn_loss_fn := SinkhornLoss env in
  let s := set_step s 0 in
  let total_iter := num_iter (synth_stage x_cfg) in
  '(renderer, s) ← synthesis_iterations (Z.to_nat (total_iter - step s))
                     l_struct_fn sinkhorn_loss_fn inputs init_relative_pos
                     init_curves renderer s;
  let final_raster_sketch := get_image env renderer in
  let s := plot_img s final_raster_sketch result_path "final_render" in
  Ok (renderer, s).

Definition synthesis_with_style_supervision (prompt : string)
    (negative_prompt : NegPrompt) (renderer : R) (style_prompt : option string)
    (recon_style_fpath : string) (s : Self) : result (R * Self) :=
  '(target, s) ← style_inversion prompt negative_prompt style_prompt
                   recon_style_fpath s;
  let inputs := img_to_tensor target in
  synthesis_optimization inputs renderer s.

Definition painterly_rendering (text_prompt : string) (negative_prompt : NegPrompt)
    (style_fpath : string) (style_prompt : option string) (s : Self)
  : result (R * Self) :=
  style_tensor ← load_img_to_tensor s style_fpath;
  let s := plot_img s style_tensor style_dir "style_image_input" in
  let renderer := new_painter env style_tensor in
  let '(renderer, img) := init_canvas env (random_init x_cfg) renderer in
  let s := plot_img s img style_dir "stroke_init_style" in
  let '((renderer, recon_style_fpath), s) := brushstroke_imitation renderer s in
  synthesis_with_style_supervision text_prompt negative_prompt renderer
                                   style_prompt style_fpath s.

End Pipeline.
End pipeline.

(* ===================================================================== *)
(** ** Vocabulary of the statements                                       *)
(* ===================================================================== *)

(** What [_ddim_loop] relies on from the pipeline object once the scheduler
    has its timesteps: one timestep per inference step, each of them an
    index into [alphas_cumprod]; a noise predictor and a VAE that keep the
    batch size; text encoders that return at least two hidden states. *)
Record loop_contract (m : StableDiffusionXLPipeline) : Prop := {
  lc_timesteps :
    length (timesteps (scheduler m)) = Z.to_nat (num_inference_steps (scheduler m));
  lc_range :
    Forall (fun t => 0 <= t < Z.of_nat (length (alphas_cumprod (scheduler m))))
           (timesteps (scheduler m));
  lc_train : 0 <= num_train_timesteps (scheduler m);
  lc_unet : forall xs t c k, is_batch (length xs) (unet m (Tn xs) t c k);
  lc_vae : forall xs, is_batch (length xs) (vae_encode_mean m (Tn xs));
  lc_enc : forall p,
    (2 <= length (hidden_states (text_encoder m (tokenizer m p))))%nat;
  lc_enc_2 : forall p,
    (2 <= length (hidden_states (text_encoder_2 m (tokenizer_2 m p))))%nat
}.

(** [noising_chain body i x ys]: starting from the sample [x] at loop index
    [i], each element of [ys] is obtained from its predecessor by one pass
    through the loop body, i.e. by one more inversion (noising) step. *)
Fixpoint noising_chain (body : Z -> Tensor -> result Tensor) (i : nat)
    (x : Tensor) (ys : list Tensor) : Prop :=
  match ys with
  | [] => True
  | y :: ys' =>
      body (Z.of_nat i) (Tn [x]) = Ok (Tn [y]) /\ noising_chain body (S i) y ys'
  end.



(** Closed forms of the three stage-2 terms, as functions of the current
    raster, the target and the renderer. *)
Section Terms.

Context {R : Type}.
Variable env : Collaborators R.
Variable x_cfg : XCfg.

Definition recon_term (raster_sketch inputs : Tensor) : Q :=
  if Qpositive (l2_loss x_cfg)
  then (mse_loss env raster_sketch inputs * l2_loss x_cfg)%Q
  else 0%Q.

Definition struct_term (raster_sketch inputs : Tensor) : Q :=
  if Qpositive (struct_loss_weight x_cfg)
  then
    if decide (struct_loss x_cfg = "ssim")
    then (1 - SSIM env raster_sketch inputs)%Q
    else if decide (struct_loss x_cfg = "msssim")
    then (1 - MSSSIM env raster_sketch inputs)%Q
    else 0%Q
  else 0%Q.

Definition pos_term (init_relative_pos init_curves : Tensor) (renderer : R)
    (raster_sketch : Tensor) : Q :=
  if Qpositive (pos_loss_weight x_cfg)
  then
    if decide (pos_type x_cfg = "pos")
    then (mse_loss env (get_relative_pos env (get_point_parameters env renderer))
                   init_relative_pos * pos_loss_weight x_cfg)%Q
    else if decide (pos_type x_cfg = "bez")
    then (bezier_curve_loss env (get_point_parameters env renderer) init_curves
          * pos_loss_weight x_cfg)%Q
    else if decide (pos_type x_cfg = "sinkhorn")
    then (SinkhornLoss env raster_sketch (style_img env renderer)
          * pos_loss_weight x_cfg)%Q
    else 0%Q
  else 0%Q.

(** The breakdown reported when the renderer is in state [renderer]. *)
Definition report_of (inputs init_relative_pos init_curves : Tensor)
    (renderer : R) : LossReport :=
  let raster_sketch := get_image env renderer in
  {| l_total := (recon_term raster_sketch inputs + struct_term raster_sketch inputs
                 + pos_term init_relative_pos init_curves renderer raster_sketch)%Q;
     l_recon := recon_term raster_sketch inputs;
     l_struct := struct_term raster_sketch inputs;
     l_pos := pos_term init_relative_pos init_curves renderer raster_sketch |}.

End Terms.

(* ===================================================================== *)
(** ** A small concrete instance, used to run the definitions             *)
(* ===================================================================== *)

Module Demo.

(** Square root, exact on squares of rationals. *)
Definition pow_half (q : Q) : Q :=
  let r := Qred q in
  (Z.sqrt (Qnum r) # Pos.sqrt (Qden r))%Q.

Fixpoint tsum (t : Tensor) : Q :=
  match t with
  | Sc x => x
  | Tn xs => fold_right (fun c acc => (tsum c + acc)%Q) 0%Q xs
  end.

Fixpoint tcount (t : Tensor) : nat :=
  match t with
  | Sc _ => 1%nat
  | Tn xs => fold_right (fun c acc => (tcount c + acc)%nat) O xs
  end.

(** [F.mse_loss] with the default mean reduction. *)
Definition mse (a b : Tensor) : Q :=
  let d := tmap2 (fun x y => ((x - y) * (x - y))%Q) a b in
  Qred (tsum d / inject_Z (Z.of_nat (tcount d))).

(** Twelve table entries whose square roots, and those of their
    complements, are rational. *)
Definition alphas : list Q :=
  [ (3600 # 3721); (1600 # 1681); (576 # 625); (144 # 169); (225 # 289);
    (16 # 25); (441 # 841); (400 # 841); (9 # 25); (64 # 289); (25 # 169);
    (49 # 625) ]%Q.

Definition sched0 : Scheduler :=
  {| num_train_timesteps := 12; num_inference_steps := 0; timesteps := [];
     alphas_cumprod := alphas; final_alpha_cumprod := 1 |}.

(** Evenly spaced timesteps, highest first. *)
Definition demo_set_timesteps (n : Z) (s : Scheduler) : Scheduler :=
  let ratio := num_train_timesteps s / n in
  {| num_train_timesteps := num_train_timesteps s;
     num_inference_steps := n;
     timesteps := reverse (map (fun i => i * ratio) (py_range n));
     alphas_cumprod := alphas_cumprod s;
     final_alpha_cumprod := final_alpha_cumprod s |}.

Definition demo_tokenizer (s : string) : list Z :=
  map (fun a => Z.of_nat (Ascii.nat_of_ascii a)) (String.list_ascii_of_string s).

Definition demo_encoder (w : Z) (ids : list Z) : TextEncoderOutput :=
  let n := inject_Z (Z.of_nat (length ids) + 1) in
  {| out0 := Tn [Tn [Sc n; Sc (inject_Z w)]];
     hidden_states :=
       [ Tn [Tn [Tn [Sc 1; Sc n]]];
         Tn [Tn [Tn [Sc (inject_Z w); Sc n]]];
         Tn [Tn [Tn [Sc 3; Sc n]]] ] |}.

(** The k-th sample of the batch gets the constant prediction k + 1. *)
Definition demo_unet (x : Tensor) (t : Z) (ctx : Tensor)
    (added : gmap string Tensor) : Tensor :=
  Tn (imap (fun k xk => tmap (fun _ => inject_Z (Z.of_nat k + 1)) xk)
           (children x)).

Definition model : StableDiffusionXLPipeline :=
  {| tokenizer := demo_tokenizer;
     text_encoder := demo_encoder 5;
     tokenizer_2 := demo_tokenizer;
     text_encoder_2 := demo_encoder 7;
     projection_dim := 1280;
     _get_add_time_ids := fun a b c d =>
       Tn [Tn [Sc (inject_Z (fst a)); Sc (inject_Z (snd a));
               Sc (inject_Z (fst b)); Sc (inject_Z (snd b));
               Sc (inject_Z (fst c)); Sc (inject_Z (snd c))]];
     unet := demo_unet;
     vae_encode_mean := fun t => t;
     vae_decode := fun t => t;
     scaling_factor := 1 # 2;
     scheduler := sched0;
     set_timesteps := demo_set_timesteps |}.

(** A 1 x 1 RGB image. *)
Definition style_image : Image := Tn [Tn [Tn [Sc 255; Sc 0; Sc 51]]].

(** Channel-first to channel-last: out[h][w][c] = t[c][h][w]. *)
Definition permute_1_2_0 (t : Tensor) : Tensor :=
  let chans := children t in
  match chans with
  | [] => Tn []
  | c0 :: _ =>
      Tn (imap (fun h row =>
                  Tn (imap (fun w _ =>
                              Tn (map (fun ch =>
                                         default (Sc 0)
                                           (children (default (Tn []) (children ch !! h))
                                              !! w))
                                      chans))
                           (children row)))
               (children c0))
  end.

Fixpoint rank (t : Tensor) : nat :=
  match t with
  | Sc _ => O
  | Tn [] => 1%nat
  | Tn (x :: _) => S (rank x)
  end.

(** A raster in [0, 1], with or without a batch dimension, as an image. *)
Definition demo_to_png (t : Tensor) : Image :=
  let chw := if (rank t =? 4)%nat then default (Tn []) (children t !! 0%nat) else t in
  tmap (fun x => Qred (x * 255)) (permute_1_2_0 chw).

(** A stand-in for the generation loop of the diffusion pipeline: after each
    denoising step the callback receives the working latents and its answer
    replaces them. *)
Fixpoint demo_denoise (idx : list Z) (cb : StepCallback) (latents : Tensor)
  : result Tensor :=
  match idx with
  | [] => Ok latents
  | i :: idx' =>
      let latents := tmap (fun x => (x / 2)%Q) latents in
      kw ← cb i i (<["latents" := latents]> ∅);
      latents ← inversion.py_getitem kw "latents";
      demo_denoise idx' cb latents
  end.

Definition demo_pipe_call (m : StableDiffusionXLPipeline) (prompts : list string)
    (neg : NegPrompt) (ip : Image) (steps : Z) (gs : Q) (latents : Tensor)
    (cb : StepCallback) : result Tensor :=
  demo_denoise (py_range steps) cb latents.

(** Renderer state: the style raster and the current canvas. *)
Definition env : Collaborators (Tensor * Tensor) :=
  {| new_painter := fun style => (style, zeros_like style);
     init_canvas := fun _ r => (r, snd r);
     get_image := snd;
     style_img := fst;
     get_point_parameters := snd;
     init_optimizers := fun _ r => r;
     optimizer_step := fun _ r => (fst r, tmap (fun x => (x / 2 + (1 # 4))%Q) (snd r));
     update_lr := fun _ _ r => r;
     mse_loss := mse;
     SSIM := fun a b => Qred (1 / (1 + mse a b));
     MSSSIM := fun a b => Qred (1 / (1 + 2 * mse a b));
     SinkhornLoss := fun a b => Qred (3 * mse a b);
     get_relative_pos := fun p => p;
     bezier_curve_loss := fun a b => Qred (2 * mse a b);
     to_png := demo_to_png;
     to_grid_png := fun t => t;
     convert_resize := fun i => i;
     convert_rgb := fun i => i;
     tv_resize := fun _ i => i;
     tv_to_tensor := fun i => permute_2_0_1 (tdivs i 255);
     tv_center_crop := fun _ t => t;
     blip2_caption := fun _ => "a painting";
     init_sdxl_pipeline := model;
     randn_sample := fun k =>
       Tn [Tn [Tn [Sc (inject_Z (Z.of_nat k))]];
           Tn [Tn [Sc (inject_Z (Z.of_nat k + 1))]];
           Tn [Tn [Sc (inject_Z (Z.of_nat k + 2))]]];
     ldm_pipe_call := demo_pipe_call |}.

Definition stage (n : Z) : StageCfg :=
  {| lr := 1; color_lr := 1 # 10; width_lr := 1 # 10; num_iter := n;
     lr_scheduler := false; decay_steps := 2 |}.

Definition cfg (w_l2 w_struct : Q) (metric : string) (w_pos : Q) (ptype : string)
  : XCfg :=
  {| imit_stage := stage 2; synth_stage := stage 2; random_init := false;
     cfg_num_inference_steps := 6; cfg_guidance_scale := 5;
     l2_loss := w_l2; struct_loss_weight := w_struct; struct_loss := metric;
     pos_loss_weight := w_pos; pos_type := ptype |}.

(** A latent of the shape of the encoded style image. *)
Definition zT0 : Tensor := Tn [Tn [Tn [Sc 8]]; Tn [Tn [Sc 16]]; Tn [Tn [Sc 24]]].

Definition self0 : Self :=
  {| step := 0;
     files := <["style.png" := style_image]> ∅;
     imit_reports := []; reports := []; captioned := [] |}.

Definition run (c : XCfg) (style_prompt : option string) : result (Tensor * Tensor * Self) :=
  pipeline.painterly_rendering pow_half env c "out" 1 1
    "a red boat" (NegStr "blurry") "style.png" style_prompt self0.

End Demo.

(* ===================================================================== *)
(** ** The command-line entry points: vectorpainter.py and strokestyle.py *)
(* ===================================================================== *)

Module entry.

(** What [main] reads of the hydra configuration.  [prompt] is optional
    because [strokestyle.py] tests it against [None]. *)
Record Cfg : Type := {
  method : string;                 (* cfg.x.method *)
  seed : Z;
  srange : list Z;
  multirun : bool;
  prompt : option string;
  neg_prompt : string;
  style : string;
  style_prompt : option string;
  target : string
}.

(** Calls that leave [main], in the order they are made. *)
Inductive Call : Type :=
| set_seed (seed : Z)
| get_seed_range (srange : list Z)
| painterly_rendering (text_prompt : string) (negative_prompt : string)
    (style_fpath : string) (style_prompt : option string)
| render_batch_wrap (seed_range : list Z) (text_prompt : string)
    (negative_prompt : string) (style_fpath : string)
    (style_prompt : option string)
| stroke_rendering (text_prompt : string) (target : string)
| stroke_batch_wrap (seed_range : list Z) (text_prompt : string)
    (style_fpath : string).

(** The exceptions of [main]: those of the prelude and the one that only
    [vectorpainter.py] names. *)
Inductive main_exn : Type :=
| Py (e : exn)
| AttributeError
| NotImplementedError.

(** The functions called by the two scripts that are defined elsewhere:
    [str.strip], [get_seed_range] and [render_batch_wrap] of the [utils]
    packages, the construction of a pipeline followed by its
    [painterly_rendering] (four arguments for [VectorPainterPipeline], two
    for [StrokeStylePipeline]), [random.shuffle]. *)
Record Runtime : Type := {
  strip : string -> string;
  seed_range_of : list Z -> list Z;
  run_pipeline : string -> string -> string -> option string -> result unit;
  run_batch : list Z -> string -> string -> string -> option string -> result unit;
  run_stroke_pipeline : string -> string -> result unit;
  run_stroke_batch : list Z -> string -> string -> result unit;
  shuffle : list string -> list string
}.

Definition METHODS : list string := ["VectorPainter"].

Definition outcome (r : result unit) : option main_exn :=
  match r with
  | Ok _ => None
  | Raise e => Some (Py e)
  end.

(** [main] of [vectorpainter.py]: the calls made and the exception that
    ends it, if any. *)
Definition main (rt : Runtime) (cfg : Cfg) : list Call * option main_exn :=
  let flag := method cfg in
  if decide (flag ∈ METHODS)
  then
    let calls := [set_seed (seed cfg)] in
    let calls :=
      if multirun cfg then calls ++ [get_seed_range (srange cfg)] else calls in
    if decide (flag = "VectorPainter")
    then
      match prompt cfg with
      | None => (calls, Some AttributeError)       (* None.strip() *)
      | Some p =>
          let p := strip rt p in
          if negb (multirun cfg)
          then (calls ++ [painterly_rendering p (neg_prompt cfg) (style cfg)
                            (style_prompt cfg)],
                outcome (run_pipeline rt p (neg_prompt cfg) (style cfg)
                           (style_prompt cfg)))
          else (calls ++ [render_batch_wrap (seed_range_of rt (srange cfg)) p
                            (neg_prompt cfg) (style cfg) (style_prompt cfg)],
                outcome (run_batch rt (seed_range_of rt (srange cfg)) p
                           (neg_prompt cfg) (style cfg) (style_prompt cfg)))
      end
    else (calls, Some NotImplementedError)
  else ([], Some (Py AssertionError)).

(** The [for] loop of [strokestyle.py]: one rendering per prompt, in order,
    until one of them raises. *)
Fixpoint strokestyle_for (rt : Runtime) (cfg : Cfg) (prompts : list string)
  : list Call * option main_exn :=
  match prompts with
  | [] => ([], None)
  | prompt :: rest =>
      let p := strip rt prompt in
      let call :=
        if negb (multirun cfg)
        then stroke_rendering p (target cfg)
        else stroke_batch_wrap (seed_range_of rt (srange cfg)) p (target cfg) in
      let r :=
        if negb (multirun cfg)
        then run_stroke_pipeline rt p (target cfg)
        else run_stroke_batch rt (seed_range_of rt (srange cfg)) p (target cfg) in
      match r with
      | Raise e => ([call], Some (Py e))
      | Ok _ =>
          let '(calls, exc) := strokestyle_for rt cfg rest in
          (call :: calls, exc)
      end
  end.

(** [main] of [strokestyle.py]; [prompts_txt] is the list of lines of
    [prompts.txt], or [None] when the file does not exist. *)
Definition strokestyle_main (rt : Runtime) (cfg : Cfg)
    (prompts_txt : option (list string)) : list Call * option main_exn :=
  let calls := [set_seed (seed cfg)] in
  let calls :=
    if multirun cfg then calls ++ [get_seed_range (srange cfg)] else calls in
  let prompts :=
    match prompt cfg with
    | None =>
        match prompts_txt with
        | Some lines => Ok (shuffle rt lines)
        | None => Raise FileNotFoundError
        end
    | Some p => Ok [p]
    end in
  match prompts with
  | Raise e => (calls, Some (Py e))
  | Ok prompts =>
      let '(rendered, exc) := strokestyle_for rt cfg prompts in
      (calls ++ rendered, exc)
  end.

End entry.

(* ===================================================================== *)
(** * Properties                                                          *)
(* ===================================================================== *)

(** ** The error monad and Python indexing *)

Lemma bind_Ok {A B} (a : A) (f : A -> result B) : (Ok a ≫= f) = f a.
Proof. reflexivity. Qed.

Lemma bind_Raise {A B} (e : exn) (f : A -> result B) : (Raise e ≫= f) = Raise e.
Proof. reflexivity. Qed.

Lemma bind_Ok_inv {A B} (m : result A) (f : A -> result B) (b : B) :
  (m ≫= f) = Ok b -> exists a, m = Ok a /\ f a = Ok b.
Proof. destruct m as [a|e]; [eauto | discriminate]. Qed.

Lemma py_index_nonneg {A} (l : list A) (i : Z) (a : A) :
  0 <= i -> l !! Z.to_nat i = Some a -> py_index l i = Ok a.
Proof.
  intros Hi Hl. unfold py_index.
  pose proof (lookup_lt_Some _ _ _ Hl) as Hlt.
  replace (i <? 0) with false by (symmetry; apply Z.ltb_ge; lia).
  replace ((0 <=? i) && (i <? Z.of_nat (length l))) with true.
  - now rewrite Hl.
  - symmetry. apply andb_true_iff. split; [apply Z.leb_le | apply Z.ltb_lt]; lia.
Qed.

Lemma py_index_in_range {A} (l : list A) (i : Z) :
  0 <= i < Z.of_nat (length l) ->
  exists a, l !! Z.to_nat i = Some a /\ py_index l i = Ok a.
Proof.
  intros Hi.
  destruct (lookup_lt_is_Some_2 l (Z.to_nat i)) as [a Ha]; [lia|].
  exists a. split; [exact Ha | apply py_index_nonneg; [lia | exact Ha]].
Qed.

Lemma py_index_from_end {A} (l : list A) (k : nat) (a : A) :
  (0 < k)%nat -> (k <= length l)%nat -> l !! (length l - k)%nat = Some a ->
  py_index l (- Z.of_nat k) = Ok a.
Proof.
  intros Hk Hle Hl. unfold py_index.
  replace (- Z.of_nat k <? 0) with true by (symmetry; apply Z.ltb_lt; lia).
  replace ((0 <=? Z.of_nat (length l) + - Z.of_nat k)
           && (Z.of_nat (length l) + - Z.of_nat k <? Z.of_nat (length l)))
    with true
    by (symmetry; apply andb_true_iff; split;
        [apply Z.leb_le | apply Z.ltb_lt]; lia).
  replace (Z.to_nat (Z.of_nat (length l) + - Z.of_nat k))
    with (length l - k)%nat by lia.
  now rewrite Hl.
Qed.

Lemma py_setitem_zero {A} (l : list A) (v : A) :
  l <> [] -> py_setitem l 0 v = Ok (<[0%nat := v]> l).
Proof.
  intros Hne. unfold py_setitem. destruct l as [|x l]; [congruence|].
  cbn [length]. replace (0 <? Z.of_nat (S (length l))) with true; [reflexivity|].
  symmetry. apply Z.ltb_lt. lia.
Qed.

(** ** Tensors *)

Section TensorInduction.

Variable P : Tensor -> Prop.
Hypothesis HSc : forall x, P (Sc x).
Hypothesis HTn : forall xs, Forall P xs -> P (Tn xs).

Fixpoint Tensor_nested_ind (t : Tensor) : P t :=
  match t with
  | Sc x => HSc x
  | Tn xs =>
      HTn xs ((fix go (l : list Tensor) : Forall P l :=
                 match l with
                 | [] => @List.Forall_nil Tensor P
                 | x :: l' => @List.Forall_cons Tensor P x l' (Tensor_nested_ind x) (go l')
                 end) xs)
  end.

End TensorInduction.

Lemma all_zero_zeros_like (t : Tensor) : all_zero (zeros_like t) = true.
Proof.
  induction t as [x | xs IH] using Tensor_nested_ind; [reflexivity|].
  unfold zeros_like in *. cbn [tmap all_zero].
  induction IH as [| y ys Hy _ IHys]; [reflexivity|].
  cbn [map forallb]. now rewrite Hy, IHys.
Qed.

Lemma same_shape_tmap (f : Q -> Q) (t : Tensor) : same_shape (tmap f t) t = true.
Proof.
  induction t as [x | xs IH] using Tensor_nested_ind; [reflexivity|].
  cbn [tmap same_shape].
  induction IH as [| y ys Hy _ IHys]; [reflexivity|].
  cbn [map]. now rewrite Hy, IHys.
Qed.

Lemma is_scalar_tmap (f : Q -> Q) (xs : list Tensor) :
  forallb is_scalar (map (tmap f) xs) = forallb is_scalar xs.
Proof.
  induction xs as [| x xs IH]; [reflexivity|].
  cbn [map forallb]. rewrite IH. now destruct x.
Qed.

(** Concatenating along the last dimension commutes with pointwise maps;
    in particular the concatenation of two zero tensors is the zero tensor
    of the concatenated shape. *)
Lemma tcat_last_tmap (f : Q -> Q) (a b : Tensor) :
  tcat_last (tmap f a) (tmap f b) = tmap f (tcat_last a b).
Proof.
  revert b. induction a as [x | xs IH] using Tensor_nested_ind; intros b.
  - now destruct b.
  - destruct b as [y | ys]; [reflexivity|].
    cbn [tmap tcat_last]. rewrite is_scalar_tmap.
    destruct (forallb is_scalar xs).
    + cbn [tmap]. now rewrite map_app.
    + cbn [tmap]. f_equal. revert ys.
      induction IH as [| x xs Hx _ IHxs]; intros ys; [reflexivity|].
      destruct ys as [| y ys]; [reflexivity|].
      cbn [map]. now rewrite Hx, IHxs.
Qed.

Lemma is_batch_tmap (f : Q -> Q) (n : nat) (t : Tensor) :
  is_batch n t -> is_batch n (tmap f t).
Proof.
  intros (xs & -> & Hlen). exists (map (tmap f) xs).
  split; [reflexivity | now rewrite length_map].
Qed.

Lemma is_batch_tmap2 (f : Q -> Q -> Q) (n : nat) (a b : Tensor) :
  is_batch n a -> is_batch n b -> is_batch n (tmap2 f a b).
Proof.
  intros (xs & -> & Hx) (ys & -> & Hy). cbn [tmap2].
  eexists. split; [reflexivity|].
  revert n ys Hx Hy. induction xs as [| x xs IH]; intros n ys Hx Hy.
  - exact Hx.
  - destruct ys as [| y ys]; [cbn in *; congruence|].
    destruct n as [| n]; [discriminate|].
    cbn [length]. f_equal. apply IH; cbn in *; congruence.
Qed.

Lemma is_batch_tlen (n : nat) (t : Tensor) : is_batch n t -> tlen t = n.
Proof. now intros (xs & -> & Hlen). Qed.

(** ** [_next_step]: the timestep index and the choice of alpha *)

Lemma next_step_timestep_eq (sch : Scheduler) (t : Z) :
  num_inference_steps sch <> 0 ->
  inversion._next_step_timestep sch t
  = Ok (Z.min (t - num_train_timesteps sch / num_inference_steps sch) 999).
Proof.
  intros Hn. unfold inversion._next_step_timestep, py_floordiv.
  destruct (Z.eqb_spec (num_inference_steps sch) 0) as [E|_]; [contradiction|].
  reflexivity.
Qed.




(** In the demo schedule it is the first pass of the inversion loop (lowest
    timestep) that uses the boundary alpha; the last pass reads the table. *)
Example demo_boundary_alpha_first_pass :
  let sch := scheduler (scheduler_set_timesteps Demo.model 6) in
  (idx ← inversion._next_step_timestep sch 0;
   inversion._next_step_alpha_prod_t sch idx) = Ok (final_alpha_cumprod sch) /\
  (idx ← inversion._next_step_timestep sch 10;
   inversion._next_step_alpha_prod_t sch idx) = Ok (9 # 25)%Q.
Proof. split; reflexivity. Qed.

(** ** The per-step callback *)

(** At every step [i] for which the trajectory has the entry
    [max (offset + 1) (i + 1)], the callback answers with the working
    latents in which slot 0 is that saved trajectory latent and every other
    slot is what it was. *)
Lemma callback_on_step_end_slot_0 (zts : Tensor) (offset i t : Z)
    (callback_kwargs : gmap string Tensor) (slots : list Tensor) :
  0 <= offset -> 0 <= i ->
  Z.max (offset + 1) (i + 1) < Z.of_nat (tlen zts) ->
  callback_kwargs !! "latents" = Some (Tn slots) ->
  slots <> [] ->
  exists z slots',
    children zts !! Z.to_nat (Z.max (offset + 1) (i + 1)) = Some z /\
    inversion.callback_on_step_end zts offset i t callback_kwargs
    = Ok (<["latents" := Tn slots']> ∅) /\
    slots' !! 0%nat = Some z /\
    length slots' = length slots /\
    forall j, j <> 0%nat -> slots' !! j = slots !! j.
Proof.
  intros Hoff Hi Hlt Hkw Hne.
  destruct (py_index_in_range (children zts) (Z.max (offset + 1) (i + 1)))
    as (z & Hz & Hidx); [unfold tlen in Hlt; lia|].
  exists z, (<[0%nat := z]> slots). split; [exact Hz|]. split.
  - unfold inversion.callback_on_step_end, inversion.py_getitem.
    rewrite Hkw, bind_Ok. unfold tindex. rewrite Hidx, bind_Ok.
    unfold tsetitem. cbn [children]. now rewrite py_setitem_zero.
  - split; [|split].
    + destruct slots; [congruence | reflexivity].
    + apply length_insert.
    + intros j Hj. now apply list_lookup_insert_ne.
Qed.

(** Beyond the end of the trajectory the callback raises instead. *)
Lemma callback_out_of_range (zts : Tensor) (offset i t : Z)
    (callback_kwargs : gmap string Tensor) (latents : Tensor) :
  callback_kwargs !! "latents" = Some latents ->
  Z.of_nat (tlen zts) <= Z.max (offset + 1) (i + 1) ->
  inversion.callback_on_step_end zts offset i t callback_kwargs = Raise IndexError.
Proof.
  intros Hkw Hge. unfold inversion.callback_on_step_end, inversion.py_getitem.
  rewrite Hkw, bind_Ok. unfold tindex, py_index. unfold tlen in Hge.
  destruct (Z.ltb_spec (Z.max (offset + 1) (i + 1)) 0) as [Hneg|Hpos].
  - replace ((0 <=? _) && _) with false; [reflexivity|].
    symmetry. apply andb_false_iff. right. apply Z.ltb_ge. lia.
  - replace ((0 <=? _) && _) with false; [reflexivity|].
    symmetry. apply andb_false_iff. right. apply Z.ltb_ge. lia.
Qed.

(** ** Text embeddings of the empty prompt *)

Lemma get_text_embeddings_empty (tok : string -> list Z)
    (enc : list Z -> TextEncoderOutput) (h : Tensor) :
  py_index (hidden_states (enc (tok ""))) (-2) = Ok h ->
  inversion._get_text_embeddings "" tok enc
  = Ok (zeros_like h, zeros_like (out0 (enc (tok "")))).
Proof.
  intros Hh. unfold inversion._get_text_embeddings. rewrite Hh, bind_Ok.
  now destruct (decide ("" = "")).
Qed.

Lemma get_text_embeddings_nonempty (prompt : string) (tok : string -> list Z)
    (enc : list Z -> TextEncoderOutput) (h : Tensor) :
  prompt <> "" ->
  py_index (hidden_states (enc (tok prompt))) (-2) = Ok h ->
  inversion._get_text_embeddings prompt tok enc = Ok (h, out0 (enc (tok prompt))).
Proof.
  intros Hne Hh. unfold inversion._get_text_embeddings. rewrite Hh, bind_Ok.
  now destruct (decide (prompt = "")).
Qed.

Lemma encode_text_sdxl_empty (model : StableDiffusionXLPipeline) (h1 h2 : Tensor) :
  py_index (hidden_states (text_encoder model (tokenizer model ""))) (-2) = Ok h1 ->
  py_index (hidden_states (text_encoder_2 model (tokenizer_2 model ""))) (-2) = Ok h2 ->
  exists added,
    inversion._encode_text_sdxl model "" = Ok (added, zeros_like (tcat_last h1 h2)) /\
    added !! "text_embeds"
    = Some (zeros_like (out0 (text_encoder_2 model (tokenizer_2 model "")))) /\
    is_Some (added !! "time_ids").
Proof.
  intros H1 H2. unfold inversion._encode_text_sdxl.
  rewrite (get_text_embeddings_empty _ _ _ H1), bind_Ok.
  rewrite (get_text_embeddings_empty _ _ _ H2), bind_Ok.
  eexists. split; [|split].
  - unfold zeros_like. now rewrite tcat_last_tmap.
  - apply lookup_insert_eq.
  - rewrite lookup_insert_ne by discriminate. rewrite lookup_insert_eq. eauto.
Qed.

(** C9.  Whatever the two text encoders compute for the empty string, the
    helper returns zero tensors of the shapes of their outputs; hence the
    unconditional half of the classifier-free-guidance conditioning (the
    first entries of [prompt_embeds] and of [text_embeds]) is all zeros. *)
Theorem empty_prompt_zero_embeddings (model : StableDiffusionXLPipeline)
    (prompt : string) (h1 h2 : Tensor)
    (added_c : gmap string Tensor) (emb_c te_c ti_c : Tensor) :
  py_index (hidden_states (text_encoder model (tokenizer model ""))) (-2) = Ok h1 ->
  py_index (hidden_states (text_encoder_2 model (tokenizer_2 model ""))) (-2) = Ok h2 ->
  inversion._encode_text_sdxl model prompt = Ok (added_c, emb_c) ->
  added_c !! "text_embeds" = Some te_c ->
  added_c !! "time_ids" = Some ti_c ->
  let p1 := out0 (text_encoder model (tokenizer model "")) in
  let p2 := out0 (text_encoder_2 model (tokenizer_2 model "")) in
  inversion._get_text_embeddings "" (tokenizer model) (text_encoder model)
  = Ok (zeros_like h1, zeros_like p1) /\
  inversion._get_text_embeddings "" (tokenizer_2 model) (text_encoder_2 model)
  = Ok (zeros_like h2, zeros_like p2) /\
  all_zero (zeros_like h1) = true /\ same_shape (zeros_like h1) h1 = true /\
  all_zero (zeros_like p1) = true /\ same_shape (zeros_like p1) p1 = true /\
  all_zero (zeros_like h2) = true /\ same_shape (zeros_like h2) h2 = true /\
  all_zero (zeros_like p2) = true /\ same_shape (zeros_like p2) p2 = true /\
  exists added emb_u,
    inversion._encode_text_sdxl_with_negative model prompt
    = Ok (added, tcat0 [emb_u; emb_c]) /\
    emb_u = zeros_like (tcat_last h1 h2) /\ all_zero emb_u = true /\
    added !! "text_embeds" = Some (tcat0 [zeros_like p2; te_c]).
Proof.
  intros H1 H2 Hc Hte Hti p1 p2.
  split; [now apply get_text_embeddings_empty|].
  split; [now apply get_text_embeddings_empty|].
  repeat (split; [first [apply all_zero_zeros_like | apply same_shape_tmap]|]).
  destruct (encode_text_sdxl_empty model h1 h2 H1 H2)
    as (added_u & Hu & Hute & [ti_u Huti]).
  eexists _, _. split; [|split; [reflexivity|split]].
  - unfold inversion._encode_text_sdxl_with_negative.
    rewrite Hc, bind_Ok. cbv beta iota. rewrite Hu, bind_Ok. cbv beta iota.
    unfold inversion.py_getitem. rewrite Hute, Hte, Huti, Hti.
    rewrite !bind_Ok. reflexivity.
  - apply all_zero_zeros_like.
  - apply lookup_insert_eq.
Qed.

Lemma empty_prompt_zero_embeddings_witness :
  py_index (hidden_states (text_encoder Demo.model (tokenizer Demo.model ""))) (-2)
  = Ok (Tn [Tn [Tn [Sc 5; Sc 1]]]) /\
  py_index (hidden_states (text_encoder_2 Demo.model (tokenizer_2 Demo.model ""))) (-2)
  = Ok (Tn [Tn [Tn [Sc 7; Sc 1]]]) /\
  exists added emb_u,
    inversion._encode_text_sdxl_with_negative Demo.model "a red boat"
    = Ok (added, tcat0 [emb_u; Tn [Tn [Tn [Sc 5; Sc 11; Sc 7; Sc 11]]]]) /\
    all_zero emb_u = true /\
    added !! "text_embeds" = Some (tcat0 [Tn [Tn [Sc 0; Sc 0]]; Tn [Tn [Sc 11; Sc 7]]]).
Proof.
  split; [reflexivity|]. split; [reflexivity|].
  destruct (empty_prompt_zero_embeddings Demo.model "a red boat"
              (Tn [Tn [Tn [Sc 5; Sc 1]]]) (Tn [Tn [Tn [Sc 7; Sc 1]]])
              (<["text_embeds" := Tn [Tn [Sc 11; Sc 7]]]>
                 (<["time_ids" := Tn [Tn [Sc 1024; Sc 1024; Sc 0; Sc 0;
                                          Sc 1024; Sc 1024]]]> ∅))
              (Tn [Tn [Tn [Sc 5; Sc 11; Sc 7; Sc 11]]])
              (Tn [Tn [Sc 11; Sc 7]])
              (Tn [Tn [Sc 1024; Sc 1024; Sc 0; Sc 0; Sc 1024; Sc 1024]])
              eq_refl eq_refl eq_refl eq_refl eq_refl)
    as (_ & _ & _ & _ & _ & _ & _ & _ & _ & _ & added & emb_u & Hrun & _ & Hz & Hte).
  exists added, emb_u. split; [exact Hrun|]. split; [exact Hz | exact Hte].
Defined.

(** The encoders of the demo model do not map the empty string to zero: the
    zero embeddings are produced by the helper, not by the encoder. *)
Example demo_encoder_output_of_empty_prompt :
  all_zero (out0 (text_encoder Demo.model (tokenizer Demo.model ""))) = false /\
  inversion._get_text_embeddings "" (tokenizer Demo.model) (text_encoder Demo.model)
  = Ok (Tn [Tn [Tn [Sc 0; Sc 0]]], Tn [Tn [Sc 0; Sc 0]]).
Proof. split; reflexivity. Qed.

(** ** The inversion loop and the order of the trajectory *)

Section InversionLoop.

Variable pow_half : Q -> Q.
Variable m : StableDiffusionXLPipeline.
Hypothesis Hc : loop_contract m.

Lemma get_text_embeddings_ok (prompt : string) (tok : string -> list Z)
    (enc : list Z -> TextEncoderOutput) :
  (2 <= length (hidden_states (enc (tok prompt))))%nat ->
  exists e, inversion._get_text_embeddings prompt tok enc = Ok e.
Proof.
  intros Hlen. unfold inversion._get_text_embeddings.
  destruct (lookup_lt_is_Some_2 (hidden_states (enc (tok prompt)))
              (length (hidden_states (enc (tok prompt))) - 2)) as [h Hh]; [lia|].
  rewrite (py_index_from_end _ 2 h) by (try exact Hh; lia).
  rewrite bind_Ok. destruct (decide (prompt = "")); eauto.
Qed.

Lemma encode_text_sdxl_ok (prompt : string) :
  exists added emb,
    inversion._encode_text_sdxl m prompt = Ok (added, emb) /\
    is_Some (added !! "text_embeds") /\ is_Some (added !! "time_ids").
Proof.
  unfold inversion._encode_text_sdxl.
  destruct (get_text_embeddings_ok prompt _ _ (lc_enc m Hc prompt)) as [[e1 p1] ->].
  destruct (get_text_embeddings_ok prompt _ _ (lc_enc_2 m Hc prompt)) as [[e2 p2] ->].
  rewrite !bind_Ok. eexists _, _. split; [reflexivity|]. split.
  - rewrite lookup_insert_eq. eauto.
  - rewrite lookup_insert_ne by discriminate. rewrite lookup_insert_eq. eauto.
Qed.

Lemma encode_text_sdxl_with_negative_ok (prompt : string) :
  exists added emb,
    inversion._encode_text_sdxl_with_negative m prompt = Ok (added, emb).
Proof.
  unfold inversion._encode_text_sdxl_with_negative.
  destruct (encode_text_sdxl_ok prompt) as (ac & ec & -> & [tc Htc] & [ic Hic]).
  destruct (encode_text_sdxl_ok "") as (au & eu & -> & [tu Htu] & [iu Hiu]).
  rewrite !bind_Ok. cbv beta iota. unfold inversion.py_getitem.
  rewrite Htu, Htc, Hiu, Hic, !bind_Ok. eauto.
Qed.

Lemma get_noise_pred_ok (x : Tensor) (t : Z) (context : Tensor) (gs : Q)
    (added : gmap string Tensor) :
  exists w, inversion._get_noise_pred m (Tn [x]) t context gs added = Ok (Tn [w]).
Proof.
  unfold inversion._get_noise_pred.
  destruct (lc_unet m Hc [x; x] t context added) as (ys & Hy & Hlen).
  change (tcat0 [Tn [x]; Tn [x]]) with (Tn [x; x]). rewrite Hy.
  destruct ys as [| u [| v [| ? ?]]]; try discriminate.
  cbn. eauto.
Qed.

Lemma next_step_ok (w x : Tensor) (t : Z) :
  num_inference_steps (scheduler m) > 0 ->
  0 <= t < Z.of_nat (length (alphas_cumprod (scheduler m))) ->
  exists y, inversion._next_step pow_half m (Tn [w]) t (Tn [x]) = Ok (Tn [y]).
Proof.
  intros Hn Ht. unfold inversion._next_step.
  rewrite next_step_timestep_eq by lia.
  set (idx := Z.min (t - num_train_timesteps (scheduler m)
                         / num_inference_steps (scheduler m)) 999).
  assert (Hidx : idx = Z.min (t - num_train_timesteps (scheduler m)
                                  / num_inference_steps (scheduler m)) 999)
    by reflexivity.
  rewrite bind_Ok.
  assert (Hratio : 0 <= num_train_timesteps (scheduler m)
                        / num_inference_steps (scheduler m)).
  { apply Z.div_pos; [apply (lc_train m Hc) | lia]. }
  assert (Halpha : exists a,
             inversion._next_step_alpha_prod_t (scheduler m) idx = Ok a).
  { unfold inversion._next_step_alpha_prod_t.
    destruct (Z.leb_spec 0 idx); [|eauto].
    destruct (py_index_in_range (alphas_cumprod (scheduler m)) idx)
      as (a & _ & ->); [lia | eauto]. }
  destruct Halpha as [a ->]. rewrite bind_Ok.
  destruct (py_index_in_range (alphas_cumprod (scheduler m)) t Ht) as (a' & _ & ->).
  rewrite bind_Ok. cbn. eauto.
Qed.

Lemma ddim_loop_body_ok (emb : Tensor) (gs : Q) (added : gmap string Tensor)
    (i : Z) (x : Tensor) :
  0 <= i < num_inference_steps (scheduler m) ->
  exists y,
    inversion._ddim_loop_body pow_half m emb gs added i (Tn [x]) = Ok (Tn [y]).
Proof.
  intros Hi. unfold inversion._ddim_loop_body.
  pose proof (lc_timesteps m Hc) as Hlen.
  destruct (py_index_in_range (timesteps (scheduler m))
              (Z.of_nat (length (timesteps (scheduler m))) - i - 1))
    as (t & Ht & ->); [lia|].
  rewrite bind_Ok.
  destruct (get_noise_pred_ok x t emb gs added) as [w ->]. rewrite bind_Ok.
  apply next_step_ok; [lia|].
  pose proof (lc_range m Hc) as Hr. rewrite Forall_forall in Hr.
  apply Hr. eapply list_elem_of_lookup_2. exact Ht.
Qed.

Lemma ddim_loop_for_chain (emb : Tensor) (gs : Q) (added : gmap string Tensor)
    (k a : nat) (x : Tensor) (acc : list Tensor) :
  Z.of_nat (a + k) <= num_inference_steps (scheduler m) ->
  exists ys,
    length ys = k /\
    noising_chain (inversion._ddim_loop_body pow_half m emb gs added) a x ys /\
    inversion._ddim_loop_for pow_half m emb gs added
      (map Z.of_nat (seq a k)) (Tn [x]) acc
    = Ok (acc ++ map (fun y => Tn [y]) ys).
Proof.
  revert a x acc. induction k as [| k IH]; intros a x acc Hak.
  - exists []. cbn. now rewrite app_nil_r.
  - destruct (ddim_loop_body_ok emb gs added (Z.of_nat a) x) as [y Hy]; [lia|].
    destruct (IH (S a) y (acc ++ [Tn [y]])) as (ys & Hlen & Hchain & Hrun); [lia|].
    exists (y :: ys). split; [cbn; lia|]. split; [cbn; auto|].
    cbn [seq map inversion._ddim_loop_for]. rewrite Hy, bind_Ok, Hrun.
    now rewrite <- app_assoc.
Qed.

End InversionLoop.

Lemma tcat0_singletons (ys : list Tensor) :
  concat (map children (map (fun y => Tn [y]) ys)) = ys.
Proof.
  induction ys as [| y ys IH]; [reflexivity|]. cbn. now rewrite IH.
Qed.

Lemma demo_loop_contract (n : Z) :
  0 < n <= 12 -> loop_contract (scheduler_set_timesteps Demo.model n).
Proof.
  intros Hn. split; cbn.
  - unfold py_range. now rewrite length_reverse, !length_map, length_seq.
  - apply Forall_forall. intros t Ht.
    apply elem_of_reverse, list_elem_of_fmap in Ht as (i & -> & Hi).
    unfold py_range in Hi. apply list_elem_of_fmap in Hi as (k & -> & Hk).
    apply elem_of_seq in Hk.
    assert (Hq : 0 <= 12 / n) by (apply Z.div_pos; lia).
    assert (Hm : n * (12 / n) <= 12) by (apply Z.mul_div_le; lia).
    split; [nia|]. change (Z.of_nat (length Demo.alphas)) with 12. nia.
  - lia.
  - intros xs t c k. eexists. split; [reflexivity|]. apply length_imap.
  - intros xs. eexists. split; [reflexivity | reflexivity].
  - intros p. cbn. lia.
  - intros p. cbn. lia.
Qed.

(** C1, as stated, fails.  For two inversion steps on the demo model the
    returned trajectory has the clean encoded image at index 2, while the
    entry at index 0 differs from it. *)
Lemma ddim_inversion_index_0_not_clean :
  exists zs z0 first final,
    inversion._encode_image Demo.model Demo.style_image = Tn [z0] /\
    inversion.ddim_inversion Demo.pow_half Demo.model Demo.style_image
      "a painting" 2 2 = Ok zs /\
    tindex zs 0 = Ok first /\ teqb first z0 = false /\
    tindex zs 2 = Ok final /\ teqb final z0 = true.
Proof.
  eexists _, _, _, _.
  split; [vm_compute; reflexivity|].
  split; [vm_compute; reflexivity|].
  split; [vm_compute; reflexivity|].
  split; [vm_compute; reflexivity|].
  split; vm_compute; reflexivity.
Qed.

(** C1, amended.  With [num_steps] inversion steps the returned trajectory
    has [num_steps + 1] latents.  It is the reversal of the path that starts
    at the clean encoded image and adds one inversion step per element:
    index [num_steps] holds the clean encoded image, index 0 the most-noised
    state, and in general index [j] holds the latent after [num_steps - j]
    inversion steps, so that larger indices are less noisy. *)
Theorem ddim_inversion_trajectory (pow_half : Q -> Q)
    (model : StableDiffusionXLPipeline) (x0 : Image) (prompt : string)
    (n : Z) (gs : Q) :
  0 <= n ->
  num_inference_steps (scheduler (scheduler_set_timesteps model n)) = n ->
  loop_contract (scheduler_set_timesteps model n) ->
  exists (added : gmap string Tensor) (emb z0 z_last : Tensor)
         (ys : list Tensor) (zs : Tensor),
    inversion._encode_image model x0 = Tn [z0] /\
    inversion._encode_text_sdxl_with_negative
      (scheduler_set_timesteps model n) prompt = Ok (added, emb) /\
    length ys = Z.to_nat n /\
    noising_chain
      (inversion._ddim_loop_body pow_half (scheduler_set_timesteps model n)
         emb gs added) 0 z0 ys /\
    inversion.ddim_inversion pow_half model x0 prompt n gs = Ok zs /\
    zs = Tn (reverse (z0 :: ys)) /\
    tlen zs = S (Z.to_nat n) /\
    tindex zs n = Ok z0 /\
    last (z0 :: ys) = Some z_last /\ tindex zs 0 = Ok z_last /\
    forall j, (j <= Z.to_nat n)%nat ->
              children zs !! j = (z0 :: ys) !! (Z.to_nat n - j)%nat.
Proof.
  intros Hn Hsteps Hc. set (m := scheduler_set_timesteps model n) in *.
  destruct (encode_text_sdxl_with_negative_ok m Hc prompt) as (added & emb & Henc).
  assert (Hz0 : exists z0, inversion._encode_image model x0 = Tn [z0]).
  { unfold inversion._encode_image, unsqueeze0.
    destruct (lc_vae m Hc
                [permute_2_0_1 (tmap (fun x => (x * 2 - 1)%Q) (tdivs x0 255))])
      as (xs & Hxs & Hlen).
    change (vae_encode_mean m) with (vae_encode_mean model) in Hxs.
    rewrite Hxs. destruct xs as [| z [| ? ?]]; try discriminate.
    cbn. eauto. }
  destruct Hz0 as [z0 Hz0].
  destruct (ddim_loop_for_chain pow_half m Hc emb gs added (Z.to_nat n) 0 z0
              [Tn [z0]]) as (ys & Hlen & Hchain & Hrun); [lia|].
  assert (Hlast : is_Some (last (z0 :: ys))).
  { rewrite last_lookup. apply lookup_lt_is_Some_2. cbn. lia. }
  destruct Hlast as [z_last Hlast].
  assert (Hlook : forall j, (j <= Z.to_nat n)%nat ->
            reverse (z0 :: ys) !! j = (z0 :: ys) !! (Z.to_nat n - j)%nat).
  { intros j Hj. rewrite reverse_lookup by (cbn; lia).
    f_equal. cbn [length]. lia. }
  exists added, emb, z0, z_last, ys, (Tn (reverse (z0 :: ys))).
  split; [exact Hz0|]. split; [exact Henc|]. split; [exact Hlen|].
  split; [exact Hchain|]. split.
  { unfold inversion.ddim_inversion. fold m. unfold inversion._ddim_loop.
    rewrite Henc, bind_Ok. cbv beta iota. rewrite Hz0, Hsteps.
    unfold py_range. rewrite Hrun, !bind_Ok. unfold tcat0.
    change ([Tn [z0]] ++ map (fun y => Tn [y]) ys)
      with (map (fun y => Tn [y]) (z0 :: ys)).
    now rewrite tcat0_singletons. }
  split; [reflexivity|]. split.
  { unfold tlen. cbn [children]. rewrite length_reverse. cbn. lia. }
  split.
  { unfold tindex. cbn [children]. apply py_index_nonneg; [lia|].
    rewrite Hlook by lia. now rewrite Nat.sub_diag. }
  split; [exact Hlast|]. split; [|exact Hlook].
  unfold tindex. cbn [children]. apply py_index_nonneg; [lia|].
  change (Z.to_nat 0) with 0%nat. rewrite Hlook by lia.
  rewrite Nat.sub_0_r, <- Hlast, last_lookup. f_equal. cbn. lia.
Qed.

Lemma ddim_inversion_trajectory_witness :
  0 <= 2 /\
  num_inference_steps (scheduler (scheduler_set_timesteps Demo.model 2)) = 2 /\
  exists zs z0,
    inversion.ddim_inversion Demo.pow_half Demo.model Demo.style_image
      "a painting" 2 2 = Ok zs /\
    tlen zs = 3%nat /\ tindex zs 2 = Ok z0 /\
    inversion._encode_image Demo.model Demo.style_image = Tn [z0].
Proof.
  split; [lia|]. split; [reflexivity|].
  destruct (ddim_inversion_trajectory Demo.pow_half Demo.model Demo.style_image
              "a painting" 2 2 ltac:(lia) eq_refl
              (demo_loop_contract 2 ltac:(lia)))
    as (added & emb & z0 & z_last & ys & zs & Hz0 & _ & _ & _ & Hrun & _
        & Hlen & Hidx & _).
  exists zs, z0. split; [exact Hrun|]. split; [exact Hlen|].
  split; [exact Hidx | exact Hz0].
Defined.

(** ** Stage 2: the loss terms of one iteration *)

Lemma Qpositive_true (w : Q) : Qpositive w = true <-> (0 < w)%Q.
Proof.
  unfold Qpositive. rewrite negb_true_iff. split.
  - intros H. apply Qnot_le_lt. intros Hle.
    apply Qle_bool_iff in Hle. congruence.
  - intros H. destruct (Qle_bool w 0) eqn:E; [|reflexivity].
    apply Qle_bool_iff in E. exfalso. exact (Qlt_not_le _ _ H E).
Qed.

Lemma Qpositive_false (w : Q) : Qpositive w = false <-> (w <= 0)%Q.
Proof.
  unfold Qpositive. rewrite negb_false_iff. apply Qle_bool_iff.
Qed.

Section Stage2.

Context {R : Type}.
Variable env : Collaborators R.
Variable x_cfg : XCfg.

(** With the metric chosen at setup the loss computation never meets an
    unbound [l_struct_fn], and its result is the closed form. *)
Lemma synthesis_losses_closed_form
    (inputs init_relative_pos init_curves : Tensor) (renderer : R)
    (raster_sketch : Tensor) :
  pipeline.synthesis_losses env x_cfg (pipeline.init_structure_loss env x_cfg)
    (SinkhornLoss env) inputs init_relative_pos init_curves renderer raster_sketch
  = Ok {| l_total := (recon_term env x_cfg raster_sketch inputs
                      + struct_term env x_cfg raster_sketch inputs
                      + pos_term env x_cfg init_relative_pos init_curves renderer
                                 raster_sketch)%Q;
          l_recon := recon_term env x_cfg raster_sketch inputs;
          l_struct := struct_term env x_cfg raster_sketch inputs;
          l_pos := pos_term env x_cfg init_relative_pos init_curves renderer
                            raster_sketch |}.
Proof.
  unfold pipeline.synthesis_losses, pipeline.init_structure_loss, struct_term.
  destruct (Qpositive (struct_loss_weight x_cfg)); [|reflexivity].
  destruct (decide (struct_loss x_cfg = "ssim")) as [E1|N1].
  - rewrite bind_Ok.
    destruct (decide (struct_loss x_cfg ∈ ["ssim"; "msssim"])) as [_|N];
      [reflexivity|].
    exfalso. apply N. rewrite E1, !elem_of_cons. auto.
  - destruct (decide (struct_loss x_cfg = "msssim")) as [E2|N2].
    + rewrite bind_Ok.
      destruct (decide (struct_loss x_cfg ∈ ["ssim"; "msssim"])) as [_|N];
        [reflexivity|].
      exfalso. apply N. rewrite E2, !elem_of_cons. auto.
    + rewrite bind_Ok.
      destruct (decide (struct_loss x_cfg ∈ ["ssim"; "msssim"])) as [Hin|_];
        [|reflexivity].
      exfalso. rewrite !elem_of_cons, elem_of_nil in Hin. tauto.
Qed.



(** The loop, when the loss carries a gradient: [n] passes append [n]
    reports, each the closed form at the state the renderer had in that
    pass; nothing else of [self] changes except the step counter. *)
Lemma synthesis_iterations_reports (n : nat)
    (inputs init_relative_pos init_curves : Tensor) (renderer : R) (s : Self) :
  pipeline.loss_requires_grad x_cfg = true ->
  exists (renderer' : R) (states : list R),
    pipeline.synthesis_iterations env x_cfg n
      (pipeline.init_structure_loss env x_cfg) (SinkhornLoss env)
      inputs init_relative_pos init_curves renderer s
    = Ok (renderer',
          {| step := step s + Z.of_nat n;
             files := files s;
             imit_reports := imit_reports s;
             reports := reports s
                        ++ map (report_of env x_cfg inputs init_relative_pos
                                          init_curves) states;
             captioned := captioned s |}) /\
    length states = n /\
    head (states ++ [renderer']) = Some renderer.
Proof.
  intros Hg. revert renderer s. induction n as [| n IH]; intros renderer s.
  - exists renderer, []. cbn. rewrite Z.add_0_r, app_nil_r.
    split; [now destruct s | auto].
  - cbn [pipeline.synthesis_iterations].
    rewrite synthesis_losses_closed_form, bind_Ok, Hg.
    cbn [pipeline.backward]. rewrite bind_Ok.
    match goal with
    | |- context [pipeline.synthesis_iterations _ _ n _ _ _ _ _ ?r ?s'] =>
        destruct (IH r s') as (r' & states & Hrun & Hlen & _)
    end.
    exists r', (renderer :: states). split; [|split; [cbn; lia | reflexivity]].
    rewrite Hrun.
    cbn [step files imit_reports reports captioned set_step add_report map].
    do 2 f_equal. f_equal; [lia | now rewrite <- app_assoc].
Qed.

(** The loop, when the loss carries no gradient: the first pass stops at
    [loss.backward()], before the optimiser steps and before anything is
    reported. *)
Lemma synthesis_iterations_no_grad (n : nat)
    (inputs init_relative_pos init_curves : Tensor) (renderer : R) (s : Self) :
  pipeline.loss_requires_grad x_cfg = false ->
  pipeline.synthesis_iterations env x_cfg (S n)
    (pipeline.init_structure_loss env x_cfg) (SinkhornLoss env)
    inputs init_relative_pos init_curves renderer s
  = Raise RuntimeError.
Proof.
  intros Hg. cbn [pipeline.synthesis_iterations].
  rewrite synthesis_losses_closed_form, bind_Ok, Hg. reflexivity.
Qed.

(** A loop that returns has reported once per pass. *)
Lemma synthesis_iterations_returned (n : nat)
    (inputs init_relative_pos init_curves : Tensor) (renderer renderer' : R)
    (s s' : Self) :
  pipeline.synthesis_iterations env x_cfg n
    (pipeline.init_structure_loss env x_cfg) (SinkhornLoss env)
    inputs init_relative_pos init_curves renderer s
  = Ok (renderer', s') ->
  exists states : list R,
    s' = {| step := step s + Z.of_nat n;
            files := files s;
            imit_reports := imit_reports s;
            reports := reports s
                       ++ map (report_of env x_cfg inputs init_relative_pos
                                         init_curves) states;
            captioned := captioned s |} /\
    length states = n.
Proof.
  intros H. destruct (pipeline.loss_requires_grad x_cfg) eqn:Hg.
  - destruct (synthesis_iterations_reports n inputs init_relative_pos init_curves
                renderer s Hg) as (r' & states & Hrun & Hlen & _).
    rewrite Hrun in H. injection H as _ <-. now exists states.
  - destruct n as [| n].
    + cbn in H. injection H as _ <-. exists []. cbn.
      rewrite Z.add_0_r, app_nil_r. split; [now destruct s | reflexivity].
    + rewrite synthesis_iterations_no_grad in H by exact Hg. discriminate.
Qed.


Lemma synthesis_optimization_returned (result_path : string)
    (inputs : Tensor) (renderer renderer' : R) (s s' : Self) :
  pipeline.synthesis_optimization env x_cfg result_path inputs renderer s
  = Ok (renderer', s') ->
  exists states : list R,
    reports s'
    = reports s
      ++ map (report_of env x_cfg inputs
                (get_relative_pos env (get_point_parameters env renderer))
                (get_point_parameters env renderer)) states /\
    length states = Z.to_nat (num_iter (synth_stage x_cfg)) /\
    captioned s' = captioned s.
Proof.
  unfold pipeline.synthesis_optimization. intros H.
  apply bind_Ok_inv in H as ([r1 s1] & Hrun & H).
  apply synthesis_iterations_returned in Hrun as (states & -> & Hlen).
  injection H as _ <-. exists states.
  split; [reflexivity|]. split; [|reflexivity].
  rewrite Hlen. cbn. f_equal. lia.
Qed.


End Stage2.

(** ** Stage 2: what the weights and selections do *)

Section Stage2Claims.

Context {R : Type}.
Variable env : Collaborators R.
Variable x_cfg : XCfg.

Lemma recon_term_disabled (raster_sketch inputs : Tensor) :
  (l2_loss x_cfg <= 0)%Q -> recon_term env x_cfg raster_sketch inputs = 0%Q.
Proof.
  intros H. unfold recon_term. now rewrite (proj2 (Qpositive_false _) H).
Qed.

Lemma struct_term_disabled (raster_sketch inputs : Tensor) :
  (struct_loss_weight x_cfg <= 0)%Q ->
  struct_term env x_cfg raster_sketch inputs = 0%Q.
Proof.
  intros H. unfold struct_term. now rewrite (proj2 (Qpositive_false _) H).
Qed.

Lemma pos_term_disabled (init_relative_pos init_curves : Tensor) (renderer : R)
    (raster_sketch : Tensor) :
  (pos_loss_weight x_cfg <= 0)%Q ->
  pos_term env x_cfg init_relative_pos init_curves renderer raster_sketch = 0%Q.
Proof.
  intros H. unfold pos_term. now rewrite (proj2 (Qpositive_false _) H).
Qed.

(** The structural term when it is enabled: one minus the metric, with no
    factor in front of it. *)
Lemma struct_term_enabled (raster_sketch inputs : Tensor) :
  (0 < struct_loss_weight x_cfg)%Q ->
  (struct_loss x_cfg = "ssim" ->
   struct_term env x_cfg raster_sketch inputs
   = (1 - SSIM env raster_sketch inputs)%Q) /\
  (struct_loss x_cfg = "msssim" ->
   struct_term env x_cfg raster_sketch inputs
   = (1 - MSSSIM env raster_sketch inputs)%Q) /\
  (struct_loss x_cfg ∉ ["ssim"; "msssim"] ->
   struct_term env x_cfg raster_sketch inputs = 0%Q).
Proof.
  intros H. unfold struct_term. rewrite (proj2 (Qpositive_true _) H).
  split; [|split].
  - intros E. now destruct (decide (struct_loss x_cfg = "ssim")).
  - intros E. destruct (decide (struct_loss x_cfg = "ssim")) as [E'|_];
      [rewrite E in E'; discriminate|].
    now destruct (decide (struct_loss x_cfg = "msssim")).
  - intros N. rewrite !elem_of_cons, elem_of_nil in N.
    destruct (decide (struct_loss x_cfg = "ssim")); [tauto|].
    destruct (decide (struct_loss x_cfg = "msssim")); [tauto | reflexivity].
Qed.



(** The reconstruction and the positional term when they are enabled: the
    selected measure times the weight. *)
Lemma recon_term_enabled (raster_sketch inputs : Tensor) :
  (0 < l2_loss x_cfg)%Q ->
  recon_term env x_cfg raster_sketch inputs
  = (mse_loss env raster_sketch inputs * l2_loss x_cfg)%Q.
Proof.
  intros H. unfold recon_term. now rewrite (proj2 (Qpositive_true _) H).
Qed.

Lemma pos_term_enabled (init_relative_pos init_curves : Tensor) (renderer : R)
    (raster_sketch : Tensor) :
  (0 < pos_loss_weight x_cfg)%Q ->
  (pos_type x_cfg = "pos" ->
   pos_term env x_cfg init_relative_pos init_curves renderer raster_sketch
   = (mse_loss env (get_relative_pos env (get_point_parameters env renderer))
               init_relative_pos * pos_loss_weight x_cfg)%Q) /\
  (pos_type x_cfg = "bez" ->
   pos_term env x_cfg init_relative_pos init_curves renderer raster_sketch
   = (bezier_curve_loss env (get_point_parameters env renderer) init_curves
      * pos_loss_weight x_cfg)%Q) /\
  (pos_type x_cfg = "sinkhorn" ->
   pos_term env x_cfg init_relative_pos init_curves renderer raster_sketch
   = (SinkhornLoss env raster_sketch (style_img env renderer)
      * pos_loss_weight x_cfg)%Q).
Proof.
  intros H. unfold pos_term. rewrite (proj2 (Qpositive_true _) H).
  split; [|split]; intros E; rewrite E; reflexivity.
Qed.

(** The breakdown of one iteration, for every raster, target and renderer
    state: the total is the plain sum of the three terms, and a term whose
    weight is not positive is exactly 0. *)
Lemma loss_breakdown (inputs init_relative_pos init_curves : Tensor) (r : R)
    (raster_sketch : Tensor) :
  exists rep,
    pipeline.synthesis_losses env x_cfg (pipeline.init_structure_loss env x_cfg)
      (SinkhornLoss env) inputs init_relative_pos init_curves r raster_sketch
    = Ok rep /\
    l_total rep = (l_recon rep + l_struct rep + l_pos rep)%Q /\
    l_recon rep = recon_term env x_cfg raster_sketch inputs /\
    l_struct rep = struct_term env x_cfg raster_sketch inputs /\
    l_pos rep = pos_term env x_cfg init_relative_pos init_curves r raster_sketch /\
    ((l2_loss x_cfg <= 0)%Q -> l_recon rep = 0%Q) /\
    ((struct_loss_weight x_cfg <= 0)%Q -> l_struct rep = 0%Q) /\
    ((pos_loss_weight x_cfg <= 0)%Q -> l_pos rep = 0%Q).
Proof.
  eexists. split; [apply synthesis_losses_closed_form|]. cbn.
  do 4 (split; [reflexivity|]).
  split; [apply recon_term_disabled|].
  split; [apply struct_term_disabled | apply pos_term_disabled].
Qed.

(** Every breakdown reported by a stage-2 loop that returns is of this form,
    one per iteration. *)
Lemma reported_breakdowns (result_path : string) (inputs : Tensor)
    (renderer renderer' : R) (s s' : Self) :
  pipeline.synthesis_optimization env x_cfg result_path inputs renderer s
  = Ok (renderer', s') ->
  exists new : list LossReport,
    reports s' = reports s ++ new /\
    length new = Z.to_nat (num_iter (synth_stage x_cfg)) /\
    Forall (fun rep =>
              l_total rep = (l_recon rep + l_struct rep + l_pos rep)%Q /\
              ((l2_loss x_cfg <= 0)%Q -> l_recon rep = 0%Q) /\
              ((struct_loss_weight x_cfg <= 0)%Q -> l_struct rep = 0%Q) /\
              ((pos_loss_weight x_cfg <= 0)%Q -> l_pos rep = 0%Q)) new.
Proof.
  intros H.
  apply synthesis_optimization_returned in H as (states & Hreps & Hlen & _).
  eexists. split; [exact Hreps|]. split; [now rewrite length_map|].
  apply Forall_forall. intros rep Hin.
  apply list_elem_of_fmap in Hin as (r & -> & _). unfold report_of. cbn.
  split; [reflexivity|]. split; [apply recon_term_disabled|].
  split; [apply struct_term_disabled | apply pos_term_disabled].
Qed.



End Stage2Claims.


(** The positional term of the demo run above does not move with the
    target: it is 3/2 for any target, the Sinkhorn loss to the style raster. *)
Example demo_sinkhorn_term_ignores_target (target : Tensor) :
  exists rep,
    pipeline.synthesis_losses Demo.env (Demo.cfg 0 0 "ssim" 1 "sinkhorn")
      (pipeline.init_structure_loss Demo.env (Demo.cfg 0 0 "ssim" 1 "sinkhorn"))
      (SinkhornLoss Demo.env) target (Tn []) (Tn [])
      (Tn [Sc 0; Sc 0], Tn [Sc 0; Sc 1]) (Tn [Sc 0; Sc 1])
    = Ok rep /\ l_pos rep = (3 # 2 * 1)%Q.
Proof. eexists. split; reflexivity. Qed.



(** The same selection with the reconstruction term switched off as well:
    no term is left, and the run stops in the first stage-2 iteration. *)
Example demo_run_without_enabled_term :
  Demo.run (Demo.cfg 0 (-1) "ssim" 1 "foo") (Some "an oil painting")
  = Raise RuntimeError.
Proof. vm_compute. reflexivity. Qed.

(** C2 at weight 2 with the single-scale metric: for the raster (0, 1) and
    the target (1, 1) the metric of the demo is 2/3, the structural term
    reported is 1 - 2/3 = 1/3, and it is not 2 * (1 - 2/3). *)
Lemma structural_weight_not_applied :
  exists rep,
    pipeline.synthesis_losses Demo.env (Demo.cfg 1 2 "ssim" 1 "pos")
      (pipeline.init_structure_loss Demo.env (Demo.cfg 1 2 "ssim" 1 "pos"))
      (SinkhornLoss Demo.env) (Tn [Sc 1; Sc 1]) (Tn []) (Tn [])
      (Tn [Sc 0; Sc 0], Tn [Sc 0; Sc 1]) (Tn [Sc 0; Sc 1])
    = Ok rep /\
    (SSIM Demo.env (Tn [Sc 0; Sc 1]) (Tn [Sc 1; Sc 1]) == 2 # 3)%Q /\
    (l_struct rep == 1 - SSIM Demo.env (Tn [Sc 0; Sc 1]) (Tn [Sc 1; Sc 1]))%Q /\
    ~ (l_struct rep
       == struct_loss_weight (Demo.cfg 1 2 "ssim" 1 "pos")
          * (1 - SSIM Demo.env (Tn [Sc 0; Sc 1]) (Tn [Sc 1; Sc 1])))%Q.
Proof.
  eexists. split; [apply synthesis_losses_closed_form|].
  split; [reflexivity|]. split; [reflexivity|].
  intros H. vm_compute in H. discriminate.
Qed.

(** C6 at the weights 2 (reconstruction), 2 (structural, single-scale) and
    3 (positional, "pos"), for the raster (0, 1) and the target (1, 1).  The
    total is the plain sum of the three reported terms, and the
    reconstruction and positional terms are their measures times their
    weights.  The structural term is one minus the metric without its
    weight, so the total, 17/6, is not the sum of the three weighted terms,
    19/6. *)
Lemma total_is_not_the_sum_of_weighted_terms :
  exists rep,
    pipeline.synthesis_losses Demo.env (Demo.cfg 2 2 "ssim" 3 "pos")
      (pipeline.init_structure_loss Demo.env (Demo.cfg 2 2 "ssim" 3 "pos"))
      (SinkhornLoss Demo.env) (Tn [Sc 1; Sc 1]) (Tn [Sc 0; Sc 0]) (Tn [])
      (Tn [Sc 0; Sc 0], Tn [Sc 0; Sc 1]) (Tn [Sc 0; Sc 1])
    = Ok rep /\
    l_total rep = (l_recon rep + l_struct rep + l_pos rep)%Q /\
    l_recon rep = (mse_loss Demo.env (Tn [Sc 0; Sc 1]) (Tn [Sc 1; Sc 1]) * 2)%Q /\
    l_pos rep = (mse_loss Demo.env (Tn [Sc 0; Sc 1]) (Tn [Sc 0; Sc 0]) * 3)%Q /\
    l_struct rep = (1 - SSIM Demo.env (Tn [Sc 0; Sc 1]) (Tn [Sc 1; Sc 1]))%Q /\
    (l_total rep == 17 # 6)%Q /\
    (mse_loss Demo.env (Tn [Sc 0; Sc 1]) (Tn [Sc 1; Sc 1]) * 2
     + 2 * (1 - SSIM Demo.env (Tn [Sc 0; Sc 1]) (Tn [Sc 1; Sc 1]))
     + mse_loss Demo.env (Tn [Sc 0; Sc 1]) (Tn [Sc 0; Sc 0]) * 3 == 19 # 6)%Q /\
    ~ (l_total rep
       == mse_loss Demo.env (Tn [Sc 0; Sc 1]) (Tn [Sc 1; Sc 1])
          * l2_loss (Demo.cfg 2 2 "ssim" 3 "pos")
          + struct_loss_weight (Demo.cfg 2 2 "ssim" 3 "pos")
            * (1 - SSIM Demo.env (Tn [Sc 0; Sc 1]) (Tn [Sc 1; Sc 1]))
          + mse_loss Demo.env (Tn [Sc 0; Sc 1]) (Tn [Sc 0; Sc 0])
            * pos_loss_weight (Demo.cfg 2 2 "ssim" 3 "pos"))%Q.
Proof.
  eexists. split; [apply synthesis_losses_closed_form|].
  do 4 (split; [reflexivity|]).
  split; [reflexivity|]. split; [reflexivity|].
  intros H. vm_compute in H. discriminate.
Qed.

(** ** Guided synthesis: prompts, latents, outputs and the target *)

Section GuidedSynthesis.

Context {R : Type}.
Variable pow_half : Q -> Q.
Variable env : Collaborators R.
Variable x_cfg : XCfg.
Variable result_path : string.


(** ** The style prompt *)

(** With no style prompt, [style_inversion] behaves as if the caption of the
    image found at [init_fpath] had been supplied, after recording that this
    image was captioned. *)
Lemma style_inversion_substitutes_caption (prompt : string)
    (negative_prompt : NegPrompt) (init_fpath : string) (s : Self) (img : Image) :
  files s !! init_fpath = Some img ->
  pipeline.style_inversion pow_half env x_cfg result_path prompt negative_prompt
    None init_fpath s
  = pipeline.style_inversion pow_half env x_cfg result_path prompt negative_prompt
      (Some (blip2_caption env (convert_resize env img))) init_fpath
      (add_captioned s (convert_resize env img)).
Proof.
  intros Hf. unfold pipeline.style_inversion, image_open.
  cbn [files add_captioned]. rewrite Hf, !bind_Ok. reflexivity.
Qed.

Lemma guided_synthesis_captioned (ldm_pipe : StableDiffusionXLPipeline)
    (prompt style_prompt : string) (negative_prompt : NegPrompt)
    (init_img : Image) (zT : Tensor) (cb : StepCallback) (s s' : Self)
    (target : Image) :
  pipeline.guided_synthesis env x_cfg result_path ldm_pipe prompt style_prompt
    negative_prompt init_img zT cb s = Ok (target, s') ->
  captioned s' = captioned s.
Proof.
  unfold pipeline.guided_synthesis. intros H.
  apply bind_Ok_inv in H as (latents & _ & H).
  apply bind_Ok_inv in H as (outputs & _ & H).
  apply bind_Ok_inv in H as (o & _ & H).
  apply bind_Ok_inv in H as (t & _ & H).
  injection H as _ <-. reflexivity.
Qed.

(** With a style prompt supplied, nothing is captioned. *)
Lemma style_inversion_supplied_prompt (prompt : string)
    (negative_prompt : NegPrompt) (p : string) (init_fpath : string)
    (s s' : Self) (target : Image) :
  pipeline.style_inversion pow_half env x_cfg result_path prompt negative_prompt
    (Some p) init_fpath s = Ok (target, s') ->
  captioned s' = captioned s.
Proof.
  unfold pipeline.style_inversion. intros H.
  apply bind_Ok_inv in H as (img & _ & H).
  apply bind_Ok_inv in H as (zts & _ & H).
  apply bind_Ok_inv in H as ([zT cb] & _ & H).
  apply guided_synthesis_captioned in H. exact H.
Qed.

End GuidedSynthesis.






(** ** The callback that the guided generation registers *)

Section RegisteredCallback.

Context {R : Type}.
Variable pow_half : Q -> Q.
Variable env : Collaborators R.
Variable x_cfg : XCfg.
Variable result_path : string.


End RegisteredCallback.


(** In the demo run the pipeline calls the registered callback after each of
    its six steps, so the first of the generated samples is the trajectory
    latent at index 6, whatever was in slot 0 before. *)
Example demo_run_first_sample_is_trajectory_latent :
  exists (zts z : Tensor) (rest : list Tensor) (r : Tensor * Tensor) (s : Self),
    inversion.ddim_inversion Demo.pow_half Demo.model Demo.style_image
      "a painting" 6 2 = Ok zts /\
    tindex zts 6 = Ok z /\
    Demo.run (Demo.cfg 1 1 "ssim" 1 "pos") (Some "a painting") = Ok (r, s) /\
    files s !! "out/sd_sample/samples.png" = Some (Tn (z :: rest)).
Proof.
  eexists _, _, _, _, _.
  split; [vm_compute; reflexivity|]. split; [vm_compute; reflexivity|].
  split; [vm_compute; reflexivity|]. vm_compute. reflexivity.
Qed.

(** ** Which image is captioned in a whole run *)

Section WholeRun.

Context {R : Type}.
Variable pow_half : Q -> Q.
Variable env : Collaborators R.
Variable x_cfg : XCfg.
Variable result_path : string.
Variables canvas_width canvas_height : Z.

Lemma imitation_iterations_self (n : nat) (renderer : R) (s : Self) :
  files (snd (pipeline.imitation_iterations env x_cfg n renderer s)) = files s /\
  captioned (snd (pipeline.imitation_iterations env x_cfg n renderer s))
  = captioned s.
Proof.
  revert renderer s. induction n as [| n IH]; intros renderer s; [easy|].
  cbn [pipeline.imitation_iterations].
  match goal with
  | |- context [pipeline.imitation_iterations _ _ n ?r ?s0] =>
      destruct (IH r s0) as [Hf Hc]
  end.
  rewrite Hf, Hc. easy.
Qed.

Lemma brushstroke_imitation_self (renderer : R) (s : Self) :
  files (snd (pipeline.brushstroke_imitation env x_cfg result_path renderer s))
  = <[path_join result_path "style_result.png" :=
        to_png env
          (get_image env
             (fst (fst (pipeline.brushstroke_imitation env x_cfg result_path
                          renderer s))))]> (files s) /\
  captioned (snd (pipeline.brushstroke_imitation env x_cfg result_path renderer s))
  = captioned s /\
  snd (fst (pipeline.brushstroke_imitation env x_cfg result_path renderer s))
  = path_join result_path "style_result.png".
Proof.
  unfold pipeline.brushstroke_imitation.
  match goal with
  | |- context [pipeline.imitation_iterations _ _ ?n ?r ?s0] =>
      destruct (imitation_iterations_self n r s0) as [Hf Hc];
      destruct (pipeline.imitation_iterations env x_cfg n r s0) as [r1 s1]
  end.
  cbn in *. now rewrite Hf, Hc.
Qed.

(** In a run without a style prompt the image that is captioned is the one
    stored at [style_fpath], the input style image, whenever that path is
    not one of the artifacts written before stage 2; the path of the stage-1
    reconstruction, [recon_style_fpath], is computed and then not used. *)
Lemma painterly_rendering_captions_input_style (text_prompt : string)
    (negative_prompt : NegPrompt) (style_fpath : string) (s s' : Self)
    (img : Image) (r : R) :
  files s !! style_fpath = Some img ->
  style_fpath <> path_join (pipeline.style_dir result_path) "style_image_input.png" ->
  style_fpath <> path_join (pipeline.style_dir result_path) "stroke_init_style.png" ->
  style_fpath <> path_join result_path "style_result.png" ->
  pipeline.painterly_rendering pow_half env x_cfg result_path canvas_width
    canvas_height text_prompt negative_prompt style_fpath None s = Ok (r, s') ->
  captioned s' = captioned s ++ [convert_resize env img].
Proof.
  intros Hf N1 N2 N3. unfold pipeline.painterly_rendering. intros H.
  apply bind_Ok_inv in H as (style_tensor & _ & H).
  destruct (init_canvas env (random_init x_cfg) (new_painter env style_tensor))
    as [renderer canvas].
  match type of H with
  | context [pipeline.brushstroke_imitation _ _ _ ?r0 ?s0] =>
      destruct (brushstroke_imitation_self r0 s0) as (Hfiles & Hcap & _);
      destruct (pipeline.brushstroke_imitation env x_cfg result_path r0 s0)
        as [[renderer1 recon_style_fpath] s1]
  end.
  cbn [fst snd] in Hfiles, Hcap.
  unfold pipeline.synthesis_with_style_supervision in H.
  apply bind_Ok_inv in H as ([target s2] & Hinv & H).
  assert (Hs1 : files s1 !! style_fpath = Some img).
  { rewrite Hfiles. rewrite lookup_insert_ne by congruence.
    unfold pipeline.plot_img. cbn [files write_file].
    change ("stroke_init_style" +:+ ".png") with "stroke_init_style.png".
    change ("style_image_input" +:+ ".png") with "style_image_input.png".
    rewrite !lookup_insert_ne by congruence. exact Hf. }
  rewrite (style_inversion_substitutes_caption _ _ _ _ _ _ _ _ _ Hs1) in Hinv.
  apply style_inversion_supplied_prompt in Hinv.
  apply synthesis_optimization_returned in H as (states & _ & _ & Hcap3).
  rewrite Hcap3, Hinv. cbn [captioned add_captioned]. now rewrite Hcap.
Qed.

End WholeRun.

(** C10 on the demo run without a style prompt.  The run completes; the
    only image handed to the captioning model is the input style image
    (converted and resized), although by then the stage-1 reconstruction has
    been written to [out/style_result.png] and differs from it. *)
Lemma caption_taken_from_input_style_image :
  exists (r : Tensor * Tensor) (s : Self) (recon : Image),
    Demo.run (Demo.cfg 1 1 "ssim" 1 "pos") None = Ok (r, s) /\
    files Demo.self0 !! "style.png" = Some Demo.style_image /\
    captioned s = [convert_resize Demo.env Demo.style_image] /\
    files s !! "out/style_result.png" = Some recon /\
    teqb recon Demo.style_image = false /\
    teqb recon (convert_resize Demo.env Demo.style_image) = false.
Proof.
  eexists _, _, _. split; [vm_compute; reflexivity|].
  split; [reflexivity|]. split; [reflexivity|].
  split; [vm_compute; reflexivity|]. split; vm_compute; reflexivity.
Qed.

(** With a style prompt the same run captions nothing. *)
Example demo_run_with_style_prompt_captions_nothing :
  exists (r : Tensor * Tensor) (s : Self),
    Demo.run (Demo.cfg 1 1 "ssim" 1 "pos") (Some "an oil painting") = Ok (r, s) /\
    captioned s = [].
Proof. eexists _, _. split; [vm_compute; reflexivity | reflexivity]. Qed.

(* ===================================================================== *)
(** * Further properties of the code                                      *)
(* ===================================================================== *)

(** ** Pointwise tensor algebra *)

Lemma tmap2_Tn (f : Q -> Q -> Q) (xs ys : list Tensor) :
  tmap2 f (Tn xs) (Tn ys) = Tn (zip_with (tmap2 f) xs ys).
Proof.
  reflexivity.
Qed.

Lemma same_shape_Tn (xs ys : list Tensor) :
  same_shape (Tn xs) (Tn ys) = true
  <-> Forall2 (fun x y => same_shape x y = true) xs ys.
Proof.
  cbn [same_shape]. revert ys.
  induction xs as [| x xs IH]; intros [| y ys]; cbn.
  - split; [constructor | reflexivity].
  - split; [discriminate | intros H; inversion H].
  - split; [discriminate | intros H; inversion H].
  - rewrite andb_true_iff, IH. split.
    + intros [H1 H2]. now constructor.
    + intros H. inversion H; subst. auto.
Qed.

Lemma teqb_Tn (xs ys : list Tensor) :
  teqb (Tn xs) (Tn ys) = true <-> Forall2 (fun x y => teqb x y = true) xs ys.
Proof.
  cbn [teqb]. revert ys.
  induction xs as [| x xs IH]; intros [| y ys]; cbn.
  - split; [constructor | reflexivity].
  - split; [discriminate | intros H; inversion H].
  - split; [discriminate | intros H; inversion H].
  - rewrite andb_true_iff, IH. split.
    + intros [H1 H2]. now constructor.
    + intros H. inversion H; subst. auto.
Qed.

Lemma tmap2_diag (F G H : Q -> Q -> Q) (a b : Tensor) :
  same_shape a b = true ->
  tmap2 F (tmap2 G a b) (tmap2 H a b)
  = tmap2 (fun x y => F (G x y) (H x y)) a b.
Proof.
  revert b. induction a as [x | xs IH] using Tensor_nested_ind;
    intros [y | ys] Hs; try discriminate; [reflexivity|].
  rewrite !tmap2_Tn. f_equal. apply same_shape_Tn in Hs.
  induction Hs as [| x y xs ys Hxy _ IHs]; [reflexivity|].
  inversion IH; subst. cbn. f_equal; auto.
Qed.

Lemma tmap_tmap2 (f : Q -> Q) (G : Q -> Q -> Q) (a b : Tensor) :
  same_shape a b = true ->
  tmap f (tmap2 G a b) = tmap2 (fun x y => f (G x y)) a b.
Proof.
  revert b. induction a as [x | xs IH] using Tensor_nested_ind;
    intros [y | ys] Hs; try discriminate; [reflexivity|].
  rewrite !tmap2_Tn. cbn [tmap]. f_equal. apply same_shape_Tn in Hs.
  induction Hs as [| x y xs ys Hxy _ IHs]; [reflexivity|].
  inversion IH; subst. cbn. f_equal; auto.
Qed.

Lemma tmap2_fst (a b : Tensor) :
  same_shape a b = true -> tmap2 (fun x _ => x) a b = a.
Proof.
  revert b. induction a as [x | xs IH] using Tensor_nested_ind;
    intros [y | ys] Hs; try discriminate; [reflexivity|].
  rewrite tmap2_Tn. f_equal. apply same_shape_Tn in Hs.
  induction Hs as [| x y xs ys Hxy _ IHs]; [reflexivity|].
  inversion IH; subst. cbn. f_equal; auto.
Qed.

Lemma tmap2_snd (a b : Tensor) :
  same_shape a b = true -> tmap2 (fun _ y => y) a b = b.
Proof.
  revert b. induction a as [x | xs IH] using Tensor_nested_ind;
    intros [y | ys] Hs; try discriminate; [reflexivity|].
  rewrite tmap2_Tn. f_equal. apply same_shape_Tn in Hs.
  induction Hs as [| x y xs ys Hxy _ IHs]; [reflexivity|].
  inversion IH; subst. cbn. f_equal; auto.
Qed.

Lemma tmap2_flip (g : Q -> Q -> Q) (a b : Tensor) :
  same_shape a b = true -> tmap2 g b a = tmap2 (fun x y => g y x) a b.
Proof.
  revert b. induction a as [x | xs IH] using Tensor_nested_ind;
    intros [y | ys] Hs; try discriminate; [reflexivity|].
  rewrite !tmap2_Tn. f_equal. apply same_shape_Tn in Hs.
  induction Hs as [| x y xs ys Hxy _ IHs]; [reflexivity|].
  inversion IH; subst. cbn. f_equal; auto.
Qed.

Lemma teqb_tmap2_ext (F G : Q -> Q -> Q) (a b : Tensor) :
  (forall x y, (F x y == G x y)%Q) ->
  same_shape a b = true ->
  teqb (tmap2 F a b) (tmap2 G a b) = true.
Proof.
  intros Hext. revert b. induction a as [x | xs IH] using Tensor_nested_ind;
    intros [y | ys] Hs; try discriminate.
  - cbn. apply Qeq_bool_iff, Hext.
  - rewrite !tmap2_Tn. apply teqb_Tn. apply same_shape_Tn in Hs.
    induction Hs as [| x y xs ys Hxy _ IHs]; [constructor|].
    inversion IH; subst. cbn. constructor; auto.
Qed.

Lemma same_shape_tmap2 (f : Q -> Q -> Q) (a b : Tensor) :
  same_shape a b = true -> same_shape (tmap2 f a b) a = true.
Proof.
  revert b. induction a as [x | xs IH] using Tensor_nested_ind;
    intros [y | ys] Hs; try discriminate; [reflexivity|].
  rewrite tmap2_Tn. apply same_shape_Tn. apply same_shape_Tn in Hs.
  induction Hs as [| x y xs ys Hxy _ IHs]; [constructor|].
  inversion IH; subst. cbn. constructor; auto.
Qed.

Lemma same_shape_refl (a : Tensor) : same_shape a a = true.
Proof.
  induction a as [x | xs IH] using Tensor_nested_ind; [reflexivity|].
  apply same_shape_Tn. induction IH; constructor; auto.
Qed.

Lemma same_shape_sym (a b : Tensor) :
  same_shape a b = true -> same_shape b a = true.
Proof.
  revert b. induction a as [x | xs IH] using Tensor_nested_ind;
    intros [y | ys] Hs; try discriminate; [reflexivity|].
  apply same_shape_Tn. apply same_shape_Tn in Hs.
  induction Hs as [| x y xs ys Hxy _ IHs]; [constructor|].
  inversion IH; subst. constructor; auto.
Qed.

Lemma same_shape_trans (a b c : Tensor) :
  same_shape a b = true -> same_shape b c = true -> same_shape a c = true.
Proof.
  revert b c. induction a as [x | xs IH] using Tensor_nested_ind;
    intros [y | ys] [z | zs] Hab Hbc; try discriminate; [reflexivity|].
  apply same_shape_Tn. apply same_shape_Tn in Hab. apply same_shape_Tn in Hbc.
  revert zs Hbc. induction Hab as [| x y xs ys Hxy _ IHs]; intros zs Hbc.
  - inversion Hbc. constructor.
  - inversion Hbc; subst. inversion IH; subst. constructor; eauto.
Qed.

(** The guidance combination [u + s * (t - u)] as one pointwise operation. *)
Lemma guidance_pointwise (s : Q) (u t : Tensor) :
  same_shape u t = true ->
  tadd u (tscale s (tsub t u)) = tmap2 (fun x y => (x + s * (y - x))%Q) u t.
Proof.
  intros Hs. unfold tadd, tscale, tsub.
  rewrite (tmap2_flip Qminus u t Hs).
  rewrite (tmap_tmap2 (Qmult s) _ u t Hs).
  transitivity (tmap2 Qplus (tmap2 (fun x _ => x) u t)
                      (tmap2 (fun x y => (s * (y - x))%Q) u t)).
  - now rewrite tmap2_fst.
  - now rewrite tmap2_diag.
Qed.

(** The closed-form update of [_next_step] as one pointwise operation. *)
Lemma next_step_pointwise (c1 c2 c3 c4 : Q) (x e : Tensor) :
  same_shape x e = true ->
  tadd (tscale c1 (tdivs (tsub x (tscale c2 e)) c3)) (tscale c4 e)
  = tmap2 (fun a b => (c1 * ((a - c2 * b) / c3) + c4 * b)%Q) x e.
Proof.
  intros Hs. unfold tadd, tscale, tdivs, tsub.
  assert (He : forall f : Q -> Q, tmap f e = tmap2 (fun _ b => f b) x e).
  { intros f. rewrite <- (tmap_tmap2 f (fun _ b => b) x e Hs).
    now rewrite tmap2_snd. }
  rewrite !He.
  transitivity
    (tmap2 Qplus
       (tmap (Qmult c1)
          (tmap (fun a => (a / c3)%Q)
             (tmap2 (fun a b => (a - c2 * b)%Q) x e)))
       (tmap2 (fun _ b => (c4 * b)%Q) x e)).
  - do 3 f_equal.
    transitivity (tmap2 Qminus (tmap2 (fun a _ => a) x e)
                        (tmap2 (fun _ b => (c2 * b)%Q) x e)).
    + now rewrite tmap2_fst.
    + now rewrite tmap2_diag.
  - rewrite (tmap_tmap2 _ _ x e Hs), (tmap_tmap2 _ _ x e Hs).
    now rewrite tmap2_diag.
Qed.

(** ** [_get_noise_pred]: classifier-free guidance *)

Lemma chunk2_app (us ts : list Tensor) :
  length us = length ts -> chunk2 (Tn (us ++ ts)) = Ok (Tn us, Tn ts).
Proof.
  intros Hlen. unfold chunk2. cbn [children].
  rewrite length_app, <- Hlen.
  assert (Hh : ((length us + length us + 1) / 2)%nat = length us).
  { symmetry. apply (Nat.div_unique _ 2 _ 1); lia. }
  rewrite Hh.
  destruct (Nat.eqb_spec (length us + length us) 1) as [E|_]; [lia|].
  now rewrite take_app_length, drop_app_length.
Qed.

Lemma same_shape_Tn_length (us ts : list Tensor) :
  same_shape (Tn us) (Tn ts) = true -> length us = length ts.
Proof. intros H. apply same_shape_Tn in H. eapply Forall2_length, H. Qed.

(** X1.  When the noise predictor answers the doubled batch with an
    unconditional half [us] and a text half [ts] of the same shape, the
    returned prediction is pointwise [u + s * (t - u)]; for guidance scale 0
    it is the unconditional half. *)
Theorem noise_pred_guidance_endpoints (m : StableDiffusionXLPipeline)
    (latent : Tensor) (t : Z) (context : Tensor)
    (added : gmap string Tensor) (us ts : list Tensor) :
  unet m (tcat0 [latent; latent]) t context added = Tn (us ++ ts) ->
  same_shape (Tn us) (Tn ts) = true ->
  (forall s,
     inversion._get_noise_pred m latent t context s added
     = Ok (tmap2 (fun x y => (x + s * (y - x))%Q) (Tn us) (Tn ts))) /\
  (exists n0,
     inversion._get_noise_pred m latent t context 0 added = Ok n0 /\
     teqb n0 (Tn us) = true).
Proof.
  intros Hunet Hs.
  assert (Hgen : forall s,
             inversion._get_noise_pred m latent t context s added
             = Ok (tmap2 (fun x y => (x + s * (y - x))%Q) (Tn us) (Tn ts))).
  { intros s. unfold inversion._get_noise_pred.
    rewrite Hunet, (chunk2_app us ts (same_shape_Tn_length us ts Hs)), bind_Ok.
    cbv beta iota. now rewrite guidance_pointwise. }
  split; [exact Hgen|].
  eexists. split; [apply Hgen|].
  rewrite <- (tmap2_fst (Tn us) (Tn ts) Hs) at 2.
  apply teqb_tmap2_ext; [|exact Hs]. intros x y. ring.
Qed.

Lemma noise_pred_guidance_endpoints_witness :
  unet Demo.model (tcat0 [Tn [Demo.zT0]; Tn [Demo.zT0]]) 0 (Tn []) ∅
  = Tn ([tmap (fun _ => 1%Q) Demo.zT0] ++ [tmap (fun _ => 2%Q) Demo.zT0]) /\
  exists n0,
    inversion._get_noise_pred Demo.model (Tn [Demo.zT0]) 0 (Tn []) 0 ∅ = Ok n0 /\
    teqb n0 (Tn [tmap (fun _ => 1%Q) Demo.zT0]) = true.
Proof.
  split; [reflexivity|].
  exact (proj2 (noise_pred_guidance_endpoints Demo.model (Tn [Demo.zT0]) 0
                  (Tn []) ∅ [tmap (fun _ => 1%Q) Demo.zT0]
                  [tmap (fun _ => 2%Q) Demo.zT0] eq_refl eq_refl)).
Defined.

(** X2.  With a noise predictor that keeps the batch size, the guided
    prediction for a batch of [k] latents is a batch of [k] predictions, for
    every [k] including the empty batch; the unpacking of the two chunks
    never fails. *)
Theorem noise_pred_keeps_batch (m : StableDiffusionXLPipeline)
    (xs : list Tensor) (t : Z) (context : Tensor) (s : Q)
    (added : gmap string Tensor) :
  (forall ys t' c k, is_batch (length ys) (unet m (Tn ys) t' c k)) ->
  exists noise_pred,
    inversion._get_noise_pred m (Tn xs) t context s added = Ok noise_pred /\
    is_batch (length xs) noise_pred.
Proof.
  intros Hunet. unfold inversion._get_noise_pred.
  change (tcat0 [Tn xs; Tn xs]) with (Tn (xs ++ xs ++ [])).
  destruct (Hunet (xs ++ xs ++ []) t context added) as (ys & -> & Hlen).
  rewrite app_nil_r, length_app in Hlen.
  rewrite <- (take_drop (length xs) ys).
  rewrite chunk2_app by (rewrite length_take, length_drop; lia).
  rewrite bind_Ok. cbv beta iota. eexists. split; [reflexivity|].
  assert (H1 : is_batch (length xs) (Tn (take (length xs) ys))).
  { eexists. split; [reflexivity|]. rewrite length_take. lia. }
  assert (H2 : is_batch (length xs) (Tn (drop (length xs) ys))).
  { eexists. split; [reflexivity|]. rewrite length_drop. lia. }
  apply is_batch_tmap2; [exact H1|].
  apply is_batch_tmap. now apply is_batch_tmap2.
Qed.

Lemma noise_pred_keeps_batch_witness :
  exists noise_pred,
    inversion._get_noise_pred Demo.model (Tn [Demo.zT0; Demo.zT0; Demo.zT0]) 0
      (Tn []) 2 ∅ = Ok noise_pred /\
    is_batch 3 noise_pred.
Proof.
  apply (noise_pred_keeps_batch Demo.model [Demo.zT0; Demo.zT0; Demo.zT0] 0
           (Tn []) 2 ∅).
  intros ys t' c k. eexists. split; [reflexivity|]. apply length_imap.
Defined.

(** ** [_next_step]: failures and the boundary step *)

(** X3.  [_next_step] raises [ZeroDivisionError] when the scheduler has zero
    inference steps, and [IndexError] when the timestep it is given lies
    outside the table [alphas_cumprod] in either direction. *)
Theorem next_step_failures (pow_half : Q -> Q) (m : StableDiffusionXLPipeline)
    (model_output sample : Tensor) (t : Z) :
  (num_inference_steps (scheduler m) = 0 ->
   inversion._next_step pow_half m model_output t sample
   = Raise ZeroDivisionError) /\
  (num_inference_steps (scheduler m) <> 0 ->
   Z.of_nat (length (alphas_cumprod (scheduler m))) <= t
   \/ t < - Z.of_nat (length (alphas_cumprod (scheduler m))) ->
   inversion._next_step pow_half m model_output t sample = Raise IndexError).
Proof.
  split.
  - intros Hz. unfold inversion._next_step, inversion._next_step_timestep,
      py_floordiv. now rewrite Hz.
  - intros Hn Hout. unfold inversion._next_step.
    rewrite next_step_timestep_eq by exact Hn. rewrite bind_Ok.
    assert (Hnext : py_index (alphas_cumprod (scheduler m)) t = Raise IndexError).
    { unfold py_index.
      destruct (Z.ltb_spec t 0) as [Hneg|Hpos].
      - replace ((0 <=? _) && _) with false; [reflexivity|].
        symmetry. apply andb_false_iff. left. apply Z.leb_gt. lia.
      - replace ((0 <=? _) && _) with false; [reflexivity|].
        symmetry. apply andb_false_iff. right. apply Z.ltb_ge. lia. }
    destruct (inversion._next_step_alpha_prod_t (scheduler m) _) as [a|e] eqn:Ea.
    + now rewrite bind_Ok, Hnext.
    + unfold inversion._next_step_alpha_prod_t in Ea.
      destruct (0 <=? _) in Ea; [|discriminate].
      unfold py_index in Ea.
      destruct ((0 <=? _) && _) in Ea;
        [destruct (_ !! _) in Ea; [discriminate|]|]; now injection Ea as <-.
Qed.

Lemma next_step_failures_witness :
  inversion._next_step Demo.pow_half Demo.model (Tn [Demo.zT0]) 0 (Tn [Demo.zT0])
  = Raise ZeroDivisionError /\
  inversion._next_step Demo.pow_half (scheduler_set_timesteps Demo.model 6)
    (Tn [Demo.zT0]) 12 (Tn [Demo.zT0]) = Raise IndexError.
Proof.
  split.
  - exact (proj1 (next_step_failures Demo.pow_half Demo.model (Tn [Demo.zT0])
                    (Tn [Demo.zT0]) 0) eq_refl).
  - apply (proj2 (next_step_failures Demo.pow_half
                    (scheduler_set_timesteps Demo.model 6) (Tn [Demo.zT0])
                    (Tn [Demo.zT0]) 12)).
    + discriminate.
    + left. vm_compute. discriminate.
Defined.

Lemma forward_noising_pointwise (c d : Q) (x e : Tensor) :
  same_shape x e = true ->
  tadd (tscale c x) (tscale d e) = tmap2 (fun a b => (c * a + d * b)%Q) x e.
Proof.
  intros Hs. unfold tadd, tscale.
  transitivity (tmap2 Qplus (tmap (Qmult c) (tmap2 (fun a _ => a) x e))
                      (tmap (Qmult d) (tmap2 (fun _ b => b) x e))).
  - now rewrite tmap2_fst, tmap2_snd.
  - rewrite !(tmap_tmap2 _ _ x e Hs). now rewrite tmap2_diag.
Qed.

(** X4.  On the boundary step (the index computed from the timestep is
    negative) with a boundary alpha whose square root is 1, the update is
    the forward noising formula: the result is pointwise
    [sqrt(a) * sample + sqrt(1 - a) * model_output] for the table entry [a]
    of the timestep. *)
Theorem next_step_boundary_is_forward_noising (pow_half : Q -> Q)
    (m : StableDiffusionXLPipeline) (model_output sample : Tensor) (t : Z)
    (a : Q) :
  num_inference_steps (scheduler m) <> 0 ->
  t - num_train_timesteps (scheduler m) / num_inference_steps (scheduler m) < 0 ->
  0 <= t ->
  alphas_cumprod (scheduler m) !! Z.to_nat t = Some a ->
  (pow_half (final_alpha_cumprod (scheduler m)) == 1)%Q ->
  (pow_half (1 - final_alpha_cumprod (scheduler m)) == 0)%Q ->
  same_shape sample model_output = true ->
  exists next_sample,
    inversion._next_step pow_half m model_output t sample = Ok next_sample /\
    teqb next_sample
         (tadd (tscale (pow_half a) sample)
               (tscale (pow_half (1 - a)%Q) model_output)) = true.
Proof.
  intros Hn Hneg Ht Ha H1 H0 Hs. unfold inversion._next_step.
  rewrite next_step_timestep_eq by exact Hn. rewrite bind_Ok.
  unfold inversion._next_step_alpha_prod_t.
  destruct (Z.leb_spec 0 (Z.min (t - num_train_timesteps (scheduler m)
                                     / num_inference_steps (scheduler m)) 999));
    [lia|].
  rewrite bind_Ok, (py_index_nonneg _ _ _ Ht Ha), bind_Ok.
  eexists. split; [reflexivity|].
  rewrite (next_step_pointwise _ _ _ _ _ _ Hs).
  rewrite (forward_noising_pointwise _ _ _ _ Hs).
  apply teqb_tmap2_ext; [|exact Hs]. intros x e.
  rewrite H1, H0. unfold Qdiv.
  setoid_replace (/ 1)%Q with 1%Q using relation Qeq by reflexivity. ring.
Qed.

Lemma next_step_boundary_is_forward_noising_witness :
  exists next_sample,
    inversion._next_step Demo.pow_half (scheduler_set_timesteps Demo.model 6)
      (Tn [tmap (fun _ => 3%Q) Demo.zT0]) 0 (Tn [Demo.zT0]) = Ok next_sample /\
    teqb next_sample
         (tadd (tscale (Demo.pow_half (3600 # 3721)) (Tn [Demo.zT0]))
               (tscale (Demo.pow_half (1 - (3600 # 3721))%Q)
                       (Tn [tmap (fun _ => 3%Q) Demo.zT0]))) = true.
Proof.
  apply (next_step_boundary_is_forward_noising Demo.pow_half
           (scheduler_set_timesteps Demo.model 6)
           (Tn [tmap (fun _ => 3%Q) Demo.zT0]) (Tn [Demo.zT0]) 0 (3600 # 3721)).
  - discriminate.
  - reflexivity.
  - lia.
  - reflexivity.
  - reflexivity.
  - reflexivity.
  - reflexivity.
Defined.

(** ** The callback: when it works, what it injects, how it fails *)

Lemma py_index_beyond {A} (l : list A) (i : Z) :
  Z.of_nat (length l) <= i -> py_index l i = Raise IndexError.
Proof.
  intros Hge. unfold py_index.
  destruct (Z.ltb_spec i 0) as [Hneg|Hpos]; [lia|].
  replace ((0 <=? i) && (i <? Z.of_nat (length l))) with false; [reflexivity|].
  symmetry. apply andb_false_iff. right. apply Z.ltb_ge. lia.
Qed.

Lemma callback_on_step_end_eq (zts : Tensor) (offset i t : Z)
    (callback_kwargs : gmap string Tensor) (slots : list Tensor) (z : Tensor) :
  callback_kwargs !! "latents" = Some (Tn slots) ->
  slots <> [] ->
  tindex zts (Z.max (offset + 1) (i + 1)) = Ok z ->
  inversion.callback_on_step_end zts offset i t callback_kwargs
  = Ok (<["latents" := Tn (<[0%nat := z]> slots)]> ∅).
Proof.
  intros Hkw Hne Hz. unfold inversion.callback_on_step_end, inversion.py_getitem.
  rewrite Hkw, bind_Ok, Hz, bind_Ok. unfold tsetitem. cbn [children].
  now rewrite py_setitem_zero.
Qed.

(** X5.  For a trajectory of [n + 1] latents and a non-empty batch of working
    latents, the callback succeeds at every step [0 <= i < n] exactly when
    [offset < n]; it does not look at the timestep, and during the steps
    [i <= offset] it keeps answering what it answers at step [offset]. *)
Theorem callback_step_schedule (zts : Tensor) (offset n : Z) (t : Z)
    (callback_kwargs : gmap string Tensor) (slots : list Tensor) :
  0 <= offset -> 0 < n ->
  Z.of_nat (tlen zts) = n + 1 ->
  callback_kwargs !! "latents" = Some (Tn slots) ->
  slots <> [] ->
  ((forall i, 0 <= i < n ->
      is_Ok (inversion.callback_on_step_end zts offset i t callback_kwargs))
   <-> offset < n) /\
  (forall i t', 0 <= i <= offset ->
     inversion.callback_on_step_end zts offset i t' callback_kwargs
     = inversion.callback_on_step_end zts offset offset t callback_kwargs).
Proof.
  intros Hoff Hn Hlen Hkw Hne. split; [split|].
  - intros Hall. destruct (Z.lt_ge_cases offset n) as [Hlt|Hge]; [exact Hlt|].
    destruct (Hall 0 ltac:(lia)) as [r Hr].
    rewrite (callback_out_of_range zts offset 0 t callback_kwargs (Tn slots) Hkw)
      in Hr by lia.
    discriminate.
  - intros Hlt i Hi.
    destruct (py_index_in_range (children zts) (Z.max (offset + 1) (i + 1)))
      as (z & _ & Hz); [unfold tlen in Hlen; lia|].
    eexists. now apply (callback_on_step_end_eq zts offset i t callback_kwargs slots z).
  - intros i t' Hi. unfold inversion.callback_on_step_end.
    now replace (Z.max (offset + 1) (i + 1)) with (Z.max (offset + 1) (offset + 1))
      by lia.
Qed.

Lemma callback_step_schedule_witness :
  (forall i, 0 <= i < 3 ->
     is_Ok (inversion.callback_on_step_end (Tn [Sc 10; Sc 11; Sc 12; Sc 13]) 1 i 0
              {["latents" := Tn [Sc 1; Sc 2]]})) /\
  inversion.callback_on_step_end (Tn [Sc 10; Sc 11; Sc 12; Sc 13]) 1 0 7
    {["latents" := Tn [Sc 1; Sc 2]]}
  = inversion.callback_on_step_end (Tn [Sc 10; Sc 11; Sc 12; Sc 13]) 1 1 0
      {["latents" := Tn [Sc 1; Sc 2]]}.
Proof.
  destruct (callback_step_schedule (Tn [Sc 10; Sc 11; Sc 12; Sc 13]) 1 3 0
              {["latents" := Tn [Sc 1; Sc 2]]} [Sc 1; Sc 2]
              ltac:(lia) ltac:(lia) ltac:(reflexivity) ltac:(reflexivity)
              ltac:(discriminate))
    as [Hiff Hsame].
  split.
  - apply Hiff. lia.
  - apply Hsame. lia.
Defined.

(** X6.  The callback raises [KeyError] when the arguments carry no entry
    ["latents"], before it reads the trajectory, and [IndexError] when the
    working latents are an empty batch; when it succeeds, its answer holds
    the entry ["latents"] and nothing else, whatever else it was given. *)
Theorem callback_failures_and_answer (zts : Tensor) (offset i t : Z)
    (callback_kwargs : gmap string Tensor) :
  (callback_kwargs !! "latents" = None ->
   inversion.callback_on_step_end zts offset i t callback_kwargs = Raise KeyError) /\
  (callback_kwargs !! "latents" = Some (Tn []) ->
   inversion.callback_on_step_end zts offset i t callback_kwargs = Raise IndexError) /\
  (forall answer,
     inversion.callback_on_step_end zts offset i t callback_kwargs = Ok answer ->
     dom answer = {["latents"]}).
Proof.
  split; [|split].
  - intros Hkw. unfold inversion.callback_on_step_end, inversion.py_getitem.
    now rewrite Hkw.
  - intros Hkw. unfold inversion.callback_on_step_end, inversion.py_getitem.
    rewrite Hkw, bind_Ok.
    destruct (tindex zts (Z.max (offset + 1) (i + 1))) as [z|e] eqn:Ez.
    + rewrite bind_Ok. reflexivity.
    + unfold tindex, py_index in Ez.
      destruct ((0 <=? _) && _) in Ez;
        [destruct (_ !! _) in Ez; [discriminate|]|]; now injection Ez as <-.
  - intros answer H. unfold inversion.callback_on_step_end in H.
    apply bind_Ok_inv in H as (latents & _ & H).
    apply bind_Ok_inv in H as (z & _ & H).
    apply bind_Ok_inv in H as (latents' & _ & H).
    injection H as <-. rewrite dom_insert_L, dom_empty_L. set_solver.
Qed.

(** ** Text embeddings *)

(** X7.  For a non-empty prompt the helper hands back the encoder's
    penultimate hidden state and its first output untouched; for any prompt
    it raises [IndexError] when the encoder returns fewer than two hidden
    states. *)
Theorem get_text_embeddings_penultimate (prompt : string)
    (tok : string -> list Z) (enc : list Z -> TextEncoderOutput) :
  (forall hs h l,
     prompt <> "" ->
     hidden_states (enc (tok prompt)) = hs ++ [h; l] ->
     inversion._get_text_embeddings prompt tok enc
     = Ok (h, out0 (enc (tok prompt)))) /\
  ((length (hidden_states (enc (tok prompt))) < 2)%nat ->
   inversion._get_text_embeddings prompt tok enc = Raise IndexError).
Proof.
  split.
  - intros hs h l Hne Hhs. apply get_text_embeddings_nonempty; [exact Hne|].
    apply (py_index_from_end _ 2).
    + lia.
    + rewrite Hhs, length_app. cbn. lia.
    + rewrite Hhs, length_app. cbn [length].
      rewrite lookup_app_r by lia.
      now replace (length hs + 2 - 2 - length hs)%nat with 0%nat by lia.
  - intros Hlt. unfold inversion._get_text_embeddings, py_index.
    change (-2 <? 0) with true. cbv iota.
    replace ((0 <=? _) && _) with false; [reflexivity|].
    symmetry. apply andb_false_iff. left. apply Z.leb_gt. lia.
Qed.

Lemma get_text_embeddings_penultimate_witness :
  inversion._get_text_embeddings "a red boat" Demo.demo_tokenizer
    (Demo.demo_encoder 5)
  = Ok (Tn [Tn [Tn [Sc 5; Sc 11]]], Tn [Tn [Sc 11; Sc 5]]) /\
  inversion._get_text_embeddings "a red boat" Demo.demo_tokenizer
    (fun _ => {| out0 := Sc 0; hidden_states := [Sc 1] |})
  = Raise IndexError.
Proof.
  split.
  - apply (proj1 (get_text_embeddings_penultimate "a red boat"
                    Demo.demo_tokenizer (Demo.demo_encoder 5))
             [Tn [Tn [Tn [Sc 1; Sc 11]]]] (Tn [Tn [Tn [Sc 5; Sc 11]]])
             (Tn [Tn [Tn [Sc 3; Sc 11]]])).
    + discriminate.
    + reflexivity.
  - apply (proj2 (get_text_embeddings_penultimate "a red boat"
                    Demo.demo_tokenizer
                    (fun _ => {| out0 := Sc 0; hidden_states := [Sc 1] |}))).
    cbn. lia.
Defined.

(** ** The trajectory and its use by [make_inversion_callback] *)

Lemma ddim_inversion_path (pow_half : Q -> Q) (model : StableDiffusionXLPipeline)
    (x0 : Image) (prompt : string) (n : Z) (gs : Q) :
  0 <= n ->
  num_inference_steps (scheduler (scheduler_set_timesteps model n)) = n ->
  loop_contract (scheduler_set_timesteps model n) ->
  exists (added : gmap string Tensor) (emb z0 : Tensor) (ys : list Tensor),
    inversion._encode_image model x0 = Tn [z0] /\
    inversion._encode_text_sdxl_with_negative
      (scheduler_set_timesteps model n) prompt = Ok (added, emb) /\
    length ys = Z.to_nat n /\
    noising_chain
      (inversion._ddim_loop_body pow_half (scheduler_set_timesteps model n)
         emb gs added) 0 z0 ys /\
    inversion.ddim_inversion pow_half model x0 prompt n gs
    = Ok (Tn (reverse (z0 :: ys))).
Proof.
  intros Hn Hsteps Hc. set (m := scheduler_set_timesteps model n) in *.
  destruct (encode_text_sdxl_with_negative_ok m Hc prompt) as (added & emb & Henc).
  assert (Hz0 : exists z0, inversion._encode_image model x0 = Tn [z0]).
  { unfold inversion._encode_image, unsqueeze0.
    destruct (lc_vae m Hc
                [permute_2_0_1 (tmap (fun x => (x * 2 - 1)%Q) (tdivs x0 255))])
      as (xs & Hxs & Hlen).
    change (vae_encode_mean m) with (vae_encode_mean model) in Hxs.
    rewrite Hxs. destruct xs as [| z [| ? ?]]; try discriminate.
    cbn. eauto. }
  destruct Hz0 as [z0 Hz0].
  destruct (ddim_loop_for_chain pow_half m Hc emb gs added (Z.to_nat n) 0 z0
              [Tn [z0]]) as (ys & Hys & Hchain & Hrun); [lia|].
  exists added, emb, z0, ys.
  split; [exact Hz0|]. split; [exact Henc|]. split; [exact Hys|].
  split; [exact Hchain|].
  unfold inversion.ddim_inversion. fold m. unfold inversion._ddim_loop.
  rewrite Henc, bind_Ok. cbv beta iota. rewrite Hz0, Hsteps.
  unfold py_range. rewrite Hrun, !bind_Ok. unfold tcat0.
  change ([Tn [z0]] ++ map (fun y => Tn [y]) ys)
    with (map (fun y => Tn [y]) (z0 :: ys)).
  now rewrite tcat0_singletons.
Qed.

(** X8.  After an inversion of [n] steps, [make_inversion_callback] with an
    offset between 0 and [n] returns as start latent the latent that has
    received [n - offset] inversion steps (the clean encoded image when the
    offset is [n]), together with the callback over the same trajectory;
    with an offset beyond [n] it raises [IndexError]. *)
Theorem inversion_then_callback_start (pow_half : Q -> Q)
    (model : StableDiffusionXLPipeline) (x0 : Image) (prompt : string)
    (n : Z) (gs : Q) :
  0 <= n ->
  num_inference_steps (scheduler (scheduler_set_timesteps model n)) = n ->
  loop_contract (scheduler_set_timesteps model n) ->
  exists (added : gmap string Tensor) (emb z0 : Tensor) (ys : list Tensor)
         (zs : Tensor),
    inversion._encode_image model x0 = Tn [z0] /\
    inversion._encode_text_sdxl_with_negative
      (scheduler_set_timesteps model n) prompt = Ok (added, emb) /\
    noising_chain
      (inversion._ddim_loop_body pow_half (scheduler_set_timesteps model n)
         emb gs added) 0 z0 ys /\
    inversion.ddim_inversion pow_half model x0 prompt n gs = Ok zs /\
    (forall offset, 0 <= offset <= n ->
       exists zT,
         (z0 :: ys) !! Z.to_nat (n - offset) = Some zT /\
         inversion.make_inversion_callback zs offset
         = Ok (zT, inversion.callback_on_step_end zs offset)) /\
    inversion.make_inversion_callback zs n
    = Ok (z0, inversion.callback_on_step_end zs n) /\
    (forall offset, n < offset ->
       inversion.make_inversion_callback zs offset = Raise IndexError).
Proof.
  intros Hn Hsteps Hc.
  destruct (ddim_inversion_path pow_half model x0 prompt n gs Hn Hsteps Hc)
    as (added & emb & z0 & ys & Hz0 & Henc & Hlen & Hchain & Hrun).
  exists added, emb, z0, ys, (Tn (reverse (z0 :: ys))).
  split; [exact Hz0|]. split; [exact Henc|]. split; [exact Hchain|].
  split; [exact Hrun|].
  assert (Hstart : forall offset, 0 <= offset <= n ->
            exists zT,
              (z0 :: ys) !! Z.to_nat (n - offset) = Some zT /\
              inversion.make_inversion_callback (Tn (reverse (z0 :: ys))) offset
              = Ok (zT, inversion.callback_on_step_end
                          (Tn (reverse (z0 :: ys))) offset)).
  { intros offset Hoff.
    destruct (lookup_lt_is_Some_2 (z0 :: ys) (Z.to_nat (n - offset)))
      as [zT HzT]; [cbn; lia|].
    exists zT. split; [exact HzT|].
    unfold inversion.make_inversion_callback, tindex. cbn [children].
    rewrite (py_index_nonneg _ offset zT); [reflexivity | lia |].
    rewrite reverse_lookup by (cbn; lia). rewrite <- HzT. f_equal.
    cbn [length]. lia. }
  split; [exact Hstart|]. split.
  - destruct (Hstart n ltac:(lia)) as (zT & HzT & Hmk).
    rewrite Z.sub_diag in HzT. cbn in HzT. now injection HzT as <-.
  - intros offset Hoff. unfold inversion.make_inversion_callback, tindex.
    cbn [children]. rewrite py_index_beyond; [reflexivity|].
    rewrite length_reverse. cbn [length]. lia.
Qed.

Lemma inversion_then_callback_start_witness :
  exists (zs z0 : Tensor),
    inversion._encode_image Demo.model Demo.style_image = Tn [z0] /\
    inversion.ddim_inversion Demo.pow_half Demo.model Demo.style_image
      "a painting" 6 2 = Ok zs /\
    inversion.make_inversion_callback zs 6
    = Ok (z0, inversion.callback_on_step_end zs 6) /\
    inversion.make_inversion_callback zs 7 = Raise IndexError.
Proof.
  destruct (inversion_then_callback_start Demo.pow_half Demo.model
              Demo.style_image "a painting" 6 2 ltac:(lia) eq_refl
              (demo_loop_contract 6 ltac:(lia)))
    as (added & emb & z0 & ys & zs & Hz0 & _ & _ & Hrun & _ & Hn & Hbeyond).
  exists zs, z0. split; [exact Hz0|]. split; [exact Hrun|].
  split; [exact Hn|]. apply Hbeyond. lia.
Defined.

(** With no inversion steps the loop body never runs: the result is
    the encoded image alone when the prompt can be encoded, and the failure
    of the text encoding otherwise, since the prompts are encoded before the
    loop. *)
Lemma ddim_inversion_without_steps (pow_half : Q -> Q)
    (model : StableDiffusionXLPipeline) (x0 : Image) (prompt : string)
    (n : Z) (gs : Q) (z0 : Tensor) :
  n <= 0 ->
  num_inference_steps (scheduler (scheduler_set_timesteps model n)) = n ->
  inversion._encode_image model x0 = Tn [z0] ->
  inversion.ddim_inversion pow_half model x0 prompt n gs
  = (inversion._encode_text_sdxl_with_negative
       (scheduler_set_timesteps model n) prompt
     ≫= fun _ => Ok (Tn [z0])).
Proof.
  intros Hn Hsteps Hz0. unfold inversion.ddim_inversion, inversion._ddim_loop.
  destruct (inversion._encode_text_sdxl_with_negative _ prompt)
    as [[added emb]|e]; [|reflexivity].
  rewrite !bind_Ok. cbv beta iota. rewrite Hsteps, Hz0. unfold py_range.
  replace (Z.to_nat n) with 0%nat by lia. reflexivity.
Qed.

Lemma ddim_inversion_without_steps_witness :
  inversion.ddim_inversion Demo.pow_half Demo.model Demo.style_image
    "a painting" 0 2
  = Ok (Tn [Tn [Tn [Tn [Sc (255 # 510)]]; Tn [Tn [Sc (-255 # 510)]];
                Tn [Tn [Sc (-153 # 510)]]]]).
Proof.
  rewrite (ddim_inversion_without_steps Demo.pow_half Demo.model
             Demo.style_image "a painting" 0 2
             (Tn [Tn [Tn [Sc (255 # 510)]]; Tn [Tn [Sc (-255 # 510)]];
                  Tn [Tn [Sc (-153 # 510)]]])
             ltac:(lia) eq_refl eq_refl).
  reflexivity.
Defined.

(** ** The conditioning handed to the noise predictor *)

Lemma get_text_embeddings_batch_1 (prompt : string) (tok : string -> list Z)
    (enc : list Z -> TextEncoderOutput) (r : list Tensor) :
  py_index (hidden_states (enc (tok prompt))) (-2) = Ok (Tn [Tn r]) ->
  is_batch 1 (out0 (enc (tok prompt))) ->
  exists r' q,
    inversion._get_text_embeddings prompt tok enc = Ok (Tn [Tn r'], q) /\
    is_batch 1 q.
Proof.
  intros Hh Hq. unfold inversion._get_text_embeddings. rewrite Hh, bind_Ok.
  destruct (decide (prompt = "")).
  - eexists _, _. split; [reflexivity|]. now apply is_batch_tmap.
  - eexists _, _. split; [reflexivity | exact Hq].
Qed.

(** X9.  When both text encoders return, for the prompt and for the empty
    string, a penultimate hidden state and a pooled output for one sequence,
    the conditioning built for classifier-free guidance has batch size 2 in
    each of its parts (prompt embeddings, pooled text embeddings, time ids),
    the size of the doubled latents it is used with, and holds exactly the
    two entries ["text_embeds"] and ["time_ids"]. *)
Theorem guidance_conditioning_is_doubled (m : StableDiffusionXLPipeline)
    (prompt : string) :
  (forall p, exists r,
     py_index (hidden_states (text_encoder m (tokenizer m p))) (-2)
     = Ok (Tn [Tn r])) ->
  (forall p, exists r,
     py_index (hidden_states (text_encoder_2 m (tokenizer_2 m p))) (-2)
     = Ok (Tn [Tn r])) ->
  (forall p, is_batch 1 (out0 (text_encoder m (tokenizer m p)))) ->
  (forall p, is_batch 1 (out0 (text_encoder_2 m (tokenizer_2 m p)))) ->
  is_batch 1 (_get_add_time_ids m (1024, 1024) (0, 0) (1024, 1024)
                                (projection_dim m)) ->
  exists (added : gmap string Tensor) (emb te ti : Tensor),
    inversion._encode_text_sdxl_with_negative m prompt = Ok (added, emb) /\
    is_batch 2 emb /\
    added !! "text_embeds" = Some te /\ is_batch 2 te /\
    added !! "time_ids" = Some ti /\ is_batch 2 ti /\
    dom added = {["text_embeds"; "time_ids"]}.
Proof.
  intros H1 H2 Hp1 Hp2 (ids & Hids & Hidlen).
  destruct ids as [| id [| ? ?]]; try discriminate.
  assert (Henc : forall p,
             exists r q,
               inversion._encode_text_sdxl m p
               = Ok (<["text_embeds" := q]> (<["time_ids" := Tn [id]]> ∅),
                     Tn [r]) /\ is_batch 1 q).
  { intros p. unfold inversion._encode_text_sdxl.
    destruct (H1 p) as [r1 Hr1]. destruct (H2 p) as [r2 Hr2].
    destruct (get_text_embeddings_batch_1 p _ _ r1 Hr1 (Hp1 p))
      as (r1' & q1 & -> & _).
    destruct (get_text_embeddings_batch_1 p _ _ r2 Hr2 (Hp2 p))
      as (r2' & q2 & -> & Hq2).
    rewrite !bind_Ok. cbv beta iota. rewrite Hids.
    change (tcat_last (Tn [Tn r1']) (Tn [Tn r2']))
      with (Tn [tcat_last (Tn r1') (Tn r2')]).
    eexists _, q2. split; [reflexivity | exact Hq2]. }
  destruct (Henc prompt) as (rc & qc & Hc & (qcs & -> & Hqc)).
  destruct (Henc "") as (ru & qu & Hu & (qus & -> & Hqu)).
  destruct qcs as [| qc1 [| ? ?]]; try discriminate.
  destruct qus as [| qu1 [| ? ?]]; try discriminate.
  unfold inversion._encode_text_sdxl_with_negative.
  rewrite Hc, bind_Ok. cbv beta iota. rewrite Hu, bind_Ok. cbv beta iota.
  unfold inversion.py_getitem.
  rewrite !lookup_insert_eq.
  rewrite !(lookup_insert_ne _ "text_embeds" "time_ids") by discriminate.
  rewrite !lookup_insert_eq, !bind_Ok.
  eexists _, _, _, _. split; [reflexivity|].
  split; [eexists; split; reflexivity|].
  split; [apply lookup_insert_eq|].
  split; [eexists; split; reflexivity|].
  split; [rewrite lookup_insert_ne by discriminate; apply lookup_insert_eq|].
  split; [eexists; split; reflexivity|].
  rewrite !dom_insert_L, dom_empty_L. set_solver.
Qed.

Lemma guidance_conditioning_is_doubled_witness :
  exists (added : gmap string Tensor) (emb te ti : Tensor),
    inversion._encode_text_sdxl_with_negative Demo.model "a red boat"
    = Ok (added, emb) /\
    is_batch 2 emb /\
    added !! "text_embeds" = Some te /\ is_batch 2 te /\
    added !! "time_ids" = Some ti /\ is_batch 2 ti /\
    dom added = {["text_embeds"; "time_ids"]}.
Proof.
  apply (guidance_conditioning_is_doubled Demo.model "a red boat").
  - intros p. eexists. reflexivity.
  - intros p. eexists. reflexivity.
  - intros p. eexists. split; reflexivity.
  - intros p. eexists. split; reflexivity.
  - eexists. split; reflexivity.
Defined.

(** ** The two optimisation loops and the step counter *)

Section Loops.

Context {R : Type}.
Variable pow_half : Q -> Q.
Variable env : Collaborators R.
Variable x_cfg : XCfg.
Variable result_path : string.
Variables canvas_width canvas_height : Z.

Lemma imitation_iterations_state (n : nat) (renderer : R) (s : Self) :
  exists (renderer' : R) (states : list R),
    pipeline.imitation_iterations env x_cfg n renderer s
    = (renderer',
       {| step := step s + Z.of_nat n;
          files := files s;
          imit_reports :=
            imit_reports s
            ++ map (fun r => mse_loss env (style_img env r) (get_image env r))
                   states;
          reports := reports s;
          captioned := captioned s |}) /\
    length states = n /\
    (n = 0%nat -> renderer' = renderer).
Proof.
  revert renderer s. induction n as [| n IH]; intros renderer s.
  - exists renderer, []. cbn. rewrite Z.add_0_r, app_nil_r.
    split; [now destruct s | auto].
  - cbn [pipeline.imitation_iterations].
    match goal with
    | |- context [pipeline.imitation_iterations _ _ n ?r ?s'] =>
        destruct (IH r s') as (r' & states & Hrun & Hlen & _)
    end.
    exists r', (renderer :: states).
    split; [|split; [cbn; lia | discriminate]].
    rewrite Hrun.
    cbn [step files imit_reports reports captioned set_step add_imit_report map].
    f_equal. f_equal; [lia | now rewrite <- app_assoc].
Qed.

Lemma brushstroke_imitation_state (renderer : R) (s : Self) :
  exists (renderer' : R) (states : list R),
    pipeline.brushstroke_imitation env x_cfg result_path renderer s
    = ((renderer', path_join result_path "style_result.png"),
       {| step := Z.max (step s) (num_iter (imit_stage x_cfg));
          files := <[path_join result_path "style_result.png" :=
                       to_png env (get_image env renderer')]> (files s);
          imit_reports :=
            imit_reports s
            ++ map (fun r => mse_loss env (style_img env r) (get_image env r))
                   states;
          reports := reports s;
          captioned := captioned s |}) /\
    length states = Z.to_nat (num_iter (imit_stage x_cfg) - step s) /\
    (num_iter (imit_stage x_cfg) <= step s ->
     renderer' = init_optimizers env (imit_stage x_cfg) renderer).
Proof.
  unfold pipeline.brushstroke_imitation.
  match goal with
  | |- context [pipeline.imitation_iterations _ _ ?n ?r ?s0] =>
      destruct (imitation_iterations_state n r s0)
        as (r' & states & Hrun & Hlen & Hzero)
  end.
  rewrite Hrun. exists r', states. split; [|split; [exact Hlen|]].
  - unfold pipeline.plot_img, write_file.
    cbn [step files imit_reports reports captioned].
    change ("style_result" +:+ ".png") with "style_result.png".
    do 2 f_equal. lia.
  - intros Hle. apply Hzero. lia.
Qed.


Lemma guided_synthesis_frame (ldm_pipe : StableDiffusionXLPipeline)
    (prompt style_prompt : string) (negative_prompt : NegPrompt)
    (init_img : Image) (zT : Tensor) (cb : StepCallback) (s s' : Self)
    (target : Image) :
  pipeline.guided_synthesis env x_cfg result_path ldm_pipe prompt style_prompt
    negative_prompt init_img zT cb s = Ok (target, s') ->
  step s' = step s /\ reports s' = reports s /\ imit_reports s' = imit_reports s.
Proof.
  unfold pipeline.guided_synthesis. intros H.
  apply bind_Ok_inv in H as (latents & _ & H).
  apply bind_Ok_inv in H as (outputs & _ & H).
  apply bind_Ok_inv in H as (o & _ & H).
  apply bind_Ok_inv in H as (t & _ & H).
  injection H as _ <-. auto.
Qed.

Lemma style_inversion_frame (prompt : string) (negative_prompt : NegPrompt)
    (style_prompt : option string) (init_fpath : string) (s s' : Self)
    (target : Image) :
  pipeline.style_inversion pow_half env x_cfg result_path prompt negative_prompt
    style_prompt init_fpath s = Ok (target, s') ->
  step s' = step s /\ reports s' = reports s /\ imit_reports s' = imit_reports s.
Proof.
  unfold pipeline.style_inversion. intros H.
  apply bind_Ok_inv in H as (img & _ & H).
  destruct style_prompt as [p|]; cbn [pipeline.captioning] in H.
  - apply bind_Ok_inv in H as (zts & _ & H).
    apply bind_Ok_inv in H as ([zT cb] & _ & H).
    now apply guided_synthesis_frame in H.
  - apply bind_Ok_inv in H as (zts & _ & H).
    apply bind_Ok_inv in H as ([zT cb] & _ & H).
    now apply guided_synthesis_frame in H.
Qed.

(** X11.  A run that completes has made [max 0 (imit.num_iter - step)]
    stage-1 reports and exactly [max 0 synth.num_iter] stage-2 reports: the
    counter is reset before stage 2, so the budget of stage 2 does not
    depend on the value the counter had, and it ends at the stage-2 budget. *)
Theorem painterly_rendering_iteration_budget (text_prompt : string)
    (negative_prompt : NegPrompt) (style_fpath : string)
    (style_prompt : option string) (s s' : Self) (r : R) :
  pipeline.painterly_rendering pow_half env x_cfg result_path canvas_width
    canvas_height text_prompt negative_prompt style_fpath style_prompt s
  = Ok (r, s') ->
  step s' = Z.max 0 (num_iter (synth_stage x_cfg)) /\
  length (imit_reports s')
  = (length (imit_reports s)
     + Z.to_nat (num_iter (imit_stage x_cfg) - step s))%nat /\
  length (reports s')
  = (length (reports s) + Z.to_nat (num_iter (synth_stage x_cfg)))%nat.
Proof.
  unfold pipeline.painterly_rendering. intros H.
  apply bind_Ok_inv in H as (style_tensor & _ & H).
  destruct (init_canvas env (random_init x_cfg) (new_painter env style_tensor))
    as [renderer canvas].
  match type of H with
  | context [pipeline.brushstroke_imitation _ _ _ ?r0 ?s0] =>
      destruct (brushstroke_imitation_state r0 s0)
        as (r1 & states & Hrun & Hlen & _)
  end.
  rewrite Hrun in H. clear Hrun.
  unfold pipeline.synthesis_with_style_supervision in H.
  apply bind_Ok_inv in H as ([target s2] & Hinv & H).
  apply style_inversion_frame in Hinv as (Hstep & Hreports & Himit).
  cbn [step reports imit_reports pipeline.plot_img write_file] in Hstep, Hreports, Himit.
  unfold pipeline.synthesis_optimization in H.
  apply bind_Ok_inv in H as ([r' s3] & Hrun2 & H).
  apply synthesis_iterations_returned in Hrun2 as (states2 & -> & Hlen2).
  injection H as _ <-.
  cbn [step reports imit_reports pipeline.plot_img write_file set_step].
  rewrite Hreports, Himit, !length_app, !length_map, Hlen, Hlen2.
  cbn [step set_step]. split; [lia|]. split; [reflexivity|]. f_equal. f_equal. lia.
Qed.

(** X12.  A run whose style file does not exist stops with
    [AssertionError] before anything is written or optimised;
    [style_inversion] called on a missing file raises [FileNotFoundError],
    with or without a style prompt. *)
Theorem missing_style_file (text_prompt : string) (negative_prompt : NegPrompt)
    (fpath : string) (style_prompt : option string) (s : Self) :
  files s !! fpath = None ->
  pipeline.painterly_rendering pow_half env x_cfg result_path canvas_width
    canvas_height text_prompt negative_prompt fpath style_prompt s
  = Raise AssertionError /\
  pipeline.style_inversion pow_half env x_cfg result_path text_prompt
    negative_prompt style_prompt fpath s = Raise FileNotFoundError.
Proof.
  intros Hnone. split.
  - unfold pipeline.painterly_rendering, pipeline.load_img_to_tensor.
    destruct (decide (is_Some (files s !! fpath))) as [[img Himg]|_];
      [congruence | reflexivity].
  - unfold pipeline.style_inversion, image_open. now rewrite Hnone.
Qed.

End Loops.

Lemma painterly_rendering_iteration_budget_witness :
  exists (r : Tensor * Tensor) (s' : Self),
    Demo.run (Demo.cfg 1 1 "ssim" 1 "pos") (Some "an oil painting") = Ok (r, s') /\
    step s' = 2 /\ length (imit_reports s') = 2%nat /\ length (reports s') = 2%nat.
Proof.
  assert (H : exists r s',
             Demo.run (Demo.cfg 1 1 "ssim" 1 "pos") (Some "an oil painting")
             = Ok (r, s')).
  { eexists _, _. vm_compute. reflexivity. }
  destruct H as (r & s' & Hrun). exists r, s'. split; [exact Hrun|].
  exact (painterly_rendering_iteration_budget Demo.pow_half Demo.env
           (Demo.cfg 1 1 "ssim" 1 "pos") "out" 1 1 "a red boat" (NegStr "blurry")
           "style.png" (Some "an oil painting") Demo.self0 s' r Hrun).
Defined.

Lemma missing_style_file_witness :
  pipeline.painterly_rendering Demo.pow_half Demo.env
    (Demo.cfg 1 1 "ssim" 1 "pos") "out" 1 1 "a red boat" (NegStr "blurry")
    "absent.png" None Demo.self0 = Raise AssertionError /\
  pipeline.style_inversion Demo.pow_half Demo.env (Demo.cfg 1 1 "ssim" 1 "pos")
    "out" "a red boat" (NegStr "blurry") None "absent.png" Demo.self0
  = Raise FileNotFoundError.
Proof.
  apply (missing_style_file Demo.pow_half Demo.env (Demo.cfg 1 1 "ssim" 1 "pos")
           "out" 1 1 "a red boat" (NegStr "blurry") "absent.png" None Demo.self0).
  reflexivity.
Defined.

(** ** [style_inversion]: the hard-coded offset *)

Section StyleInversion.

Context {R : Type}.
Variable pow_half : Q -> Q.
Variable env : Collaborators R.
Variable x_cfg : XCfg.
Variable result_path : string.

(** X13.  [style_inversion] takes its start latent at the fixed offset 5 of
    the trajectory.  With fewer than five inference steps the trajectory is
    too short and the call fails with [IndexError], whatever the prompts;
    nothing is generated. *)
Theorem style_inversion_needs_five_steps (prompt : string)
    (negative_prompt : NegPrompt) (style_prompt : option string)
    (init_fpath : string) (s : Self) (img : Image) :
  files s !! init_fpath = Some img ->
  0 <= cfg_num_inference_steps x_cfg < 5 ->
  num_inference_steps
    (scheduler (scheduler_set_timesteps (init_sdxl_pipeline env)
                  (cfg_num_inference_steps x_cfg)))
  = cfg_num_inference_steps x_cfg ->
  loop_contract (scheduler_set_timesteps (init_sdxl_pipeline env)
                   (cfg_num_inference_steps x_cfg)) ->
  pipeline.style_inversion pow_half env x_cfg result_path prompt negative_prompt
    style_prompt init_fpath s = Raise IndexError.
Proof.
  intros Hf Hn Hsteps Hc. unfold pipeline.style_inversion, image_open.
  rewrite Hf, bind_Ok.
  assert (Hshort : forall sp,
             (zts ← inversion.ddim_inversion pow_half (init_sdxl_pipeline env)
                      (convert_resize env img) sp
                      (cfg_num_inference_steps x_cfg) 2;
              inversion.make_inversion_callback zts 5)
             = Raise IndexError).
  { intros sp.
    destruct (ddim_inversion_path pow_half (init_sdxl_pipeline env)
                (convert_resize env img) sp (cfg_num_inference_steps x_cfg) 2
                ltac:(lia) Hsteps Hc)
      as (added & emb & z0 & ys & _ & _ & Hlen & _ & ->).
    rewrite bind_Ok. unfold inversion.make_inversion_callback, tindex.
    cbn [children]. rewrite py_index_beyond; [reflexivity|].
    rewrite length_reverse. cbn [length]. lia. }
  destruct style_prompt as [p|]; cbn [pipeline.captioning].
  - specialize (Hshort p).
    destruct (inversion.ddim_inversion _ _ _ _ _ _) as [zts|e].
    + rewrite bind_Ok in Hshort. rewrite bind_Ok. cbv beta zeta.
      now rewrite Hshort.
    + rewrite bind_Raise in Hshort. injection Hshort as ->. reflexivity.
  - specialize (Hshort (blip2_caption env (convert_resize env img))).
    destruct (inversion.ddim_inversion _ _ _ _ _ _) as [zts|e].
    + rewrite bind_Ok in Hshort. rewrite bind_Ok. cbv beta zeta.
      now rewrite Hshort.
    + rewrite bind_Raise in Hshort. injection Hshort as ->. reflexivity.
Qed.

End StyleInversion.

Lemma style_inversion_needs_five_steps_witness :
  pipeline.style_inversion Demo.pow_half Demo.env
    {| imit_stage := Demo.stage 2; synth_stage := Demo.stage 2;
       random_init := false; cfg_num_inference_steps := 4;
       cfg_guidance_scale := 5; l2_loss := 1; struct_loss_weight := 1;
       struct_loss := "ssim"; pos_loss_weight := 1; pos_type := "pos" |}
    "out" "a red boat" (NegStr "blurry") None "style.png" Demo.self0
  = Raise IndexError.
Proof.
  apply (style_inversion_needs_five_steps Demo.pow_half Demo.env _ "out"
           "a red boat" (NegStr "blurry") None "style.png" Demo.self0
           Demo.style_image).
  - reflexivity.
  - cbn. lia.
  - reflexivity.
  - apply demo_loop_contract. cbn. lia.
Defined.

(** ** Stage 2: how the renderer evolves *)

Section Stage2Renderer.

Context {R : Type}.
Variable env : Collaborators R.
Variable x_cfg : XCfg.



End Stage2Renderer.


(** ** The entry points *)

(** X16.  [main] of [vectorpainter.py] rejects a method other than
    "VectorPainter" by its assertion, before the seed is set or anything is
    rendered, so its final [NotImplementedError] branch is never reached.
    For the supported method it sets the seed and then makes exactly one
    rendering call, with the stripped prompt: a single run, or a batch when
    [multirun] is set (the only case in which the seed range is computed). *)
Theorem main_method_gate (rt : entry.Runtime) (cfg : entry.Cfg) :
  (entry.method cfg <> "VectorPainter" ->
   entry.main rt cfg = ([], Some (entry.Py AssertionError))) /\
  snd (entry.main rt cfg) <> Some entry.NotImplementedError /\
  (forall p,
     entry.method cfg = "VectorPainter" -> entry.prompt cfg = Some p ->
     fst (entry.main rt cfg)
     = if entry.multirun cfg
       then [entry.set_seed (entry.seed cfg);
             entry.get_seed_range (entry.srange cfg);
             entry.render_batch_wrap
               (entry.seed_range_of rt (entry.srange cfg)) (entry.strip rt p)
               (entry.neg_prompt cfg) (entry.style cfg) (entry.style_prompt cfg)]
       else [entry.set_seed (entry.seed cfg);
             entry.painterly_rendering (entry.strip rt p) (entry.neg_prompt cfg)
               (entry.style cfg) (entry.style_prompt cfg)]).
Proof.
  unfold entry.main, entry.METHODS. split; [|split].
  - intros Hne. destruct (decide (entry.method cfg ∈ ["VectorPainter"])) as [Hin|_];
      [|reflexivity].
    rewrite elem_of_cons, elem_of_nil in Hin. tauto.
  - destruct (decide (entry.method cfg ∈ ["VectorPainter"])) as [Hin|_];
      [|discriminate].
    rewrite elem_of_cons, elem_of_nil in Hin. destruct Hin as [E|[]].
    destruct (decide (entry.method cfg = "VectorPainter")); [|contradiction].
    destruct (entry.prompt cfg); [|discriminate].
    destruct (entry.multirun cfg); cbn;
      match goal with
      | |- entry.outcome ?r <> _ => destruct r; discriminate
      end.
  - intros p E Hp.
    destruct (decide (entry.method cfg ∈ ["VectorPainter"])) as [_|Hnin].
    + destruct (decide (entry.method cfg = "VectorPainter")); [|contradiction].
      rewrite Hp. now destruct (entry.multirun cfg).
    + exfalso. apply Hnin. rewrite E, elem_of_cons. auto.
Qed.

Lemma strokestyle_for_complete (rt : entry.Runtime) (cfg : entry.Cfg)
    (prompts : list string) :
  snd (entry.strokestyle_for rt cfg prompts) = None ->
  fst (entry.strokestyle_for rt cfg prompts)
  = map (fun l =>
           if negb (entry.multirun cfg)
           then entry.stroke_rendering (entry.strip rt l) (entry.target cfg)
           else entry.stroke_batch_wrap
                  (entry.seed_range_of rt (entry.srange cfg))
                  (entry.strip rt l) (entry.target cfg))
        prompts.
Proof.
  induction prompts as [| l prompts IH]; [reflexivity|].
  cbn [entry.strokestyle_for map].
  destruct (if negb (entry.multirun cfg) then _ else _) as [u|e];
    [|discriminate].
  destruct (entry.strokestyle_for rt cfg prompts) as [calls exc].
  cbn [fst snd] in *. intros H. now rewrite IH.
Qed.

(** X17.  [main] of [strokestyle.py], when no prompt is configured and
    [random.shuffle] permutes the lines of [prompts.txt]: a run that ends
    without an exception has rendered every line exactly once, blank lines
    included, each with its stripped text; without the file it raises
    [FileNotFoundError] after the seed is set and renders nothing. *)
Theorem strokestyle_renders_every_line (rt : entry.Runtime) (cfg : entry.Cfg) :
  entry.prompt cfg = None ->
  (forall l, entry.shuffle rt l ≡ₚ l) ->
  let seeding :=
    if entry.multirun cfg
    then [entry.set_seed (entry.seed cfg); entry.get_seed_range (entry.srange cfg)]
    else [entry.set_seed (entry.seed cfg)] in
  let call := fun l =>
    if negb (entry.multirun cfg)
    then entry.stroke_rendering (entry.strip rt l) (entry.target cfg)
    else entry.stroke_batch_wrap (entry.seed_range_of rt (entry.srange cfg))
           (entry.strip rt l) (entry.target cfg) in
  entry.strokestyle_main rt cfg None
  = (seeding, Some (entry.Py FileNotFoundError)) /\
  (forall lines,
     snd (entry.strokestyle_main rt cfg (Some lines)) = None ->
     exists rendered,
       fst (entry.strokestyle_main rt cfg (Some lines)) = seeding ++ rendered /\
       length rendered = length lines /\
       rendered ≡ₚ map call lines).
Proof.
  intros Hp Hperm seeding call. unfold entry.strokestyle_main. rewrite Hp.
  split; [unfold seeding; now destruct (entry.multirun cfg)|].
  intros lines Hdone.
  pose proof (strokestyle_for_complete rt cfg (entry.shuffle rt lines)) as Hc.
  destruct (entry.strokestyle_for rt cfg (entry.shuffle rt lines)) as [calls exc].
  cbn [fst snd] in *. specialize (Hc Hdone). subst calls.
  exists (map call (entry.shuffle rt lines)). split; [|split].
  - unfold seeding. now destruct (entry.multirun cfg).
  - rewrite length_map. apply Permutation_length, Hperm.
  - apply fmap_Permutation, Hperm.
Qed.

Lemma strokestyle_renders_every_line_witness :
  exists rendered,
    fst (entry.strokestyle_main
           {| entry.strip := fun l => l; entry.seed_range_of := fun r => r;
              entry.run_pipeline := fun _ _ _ _ => Ok tt;
              entry.run_batch := fun _ _ _ _ _ => Ok tt;
              entry.run_stroke_pipeline := fun _ _ => Ok tt;
              entry.run_stroke_batch := fun _ _ _ => Ok tt;
              entry.shuffle := reverse |}
           {| entry.method := "StrokeStyle"; entry.seed := 1; entry.srange := [];
              entry.multirun := false; entry.prompt := None;
              entry.neg_prompt := ""; entry.style := "";
              entry.style_prompt := None; entry.target := "cat.png" |}
           (Some ["a cat"; ""; "a dog"]))
    = [entry.set_seed 1] ++ rendered /\
    length rendered = 3%nat.
Proof.
  destruct (strokestyle_renders_every_line
              {| entry.strip := fun l => l; entry.seed_range_of := fun r => r;
                 entry.run_pipeline := fun _ _ _ _ => Ok tt;
                 entry.run_batch := fun _ _ _ _ _ => Ok tt;
                 entry.run_stroke_pipeline := fun _ _ => Ok tt;
                 entry.run_stroke_batch := fun _ _ _ => Ok tt;
                 entry.shuffle := reverse |}
              {| entry.method := "StrokeStyle"; entry.seed := 1;
                 entry.srange := []; entry.multirun := false;
                 entry.prompt := None; entry.neg_prompt := "";
                 entry.style := ""; entry.style_prompt := None;
                 entry.target := "cat.png" |}
              eq_refl (fun l => reverse_Permutation l))
    as [_ Hall].
  destruct (Hall ["a cat"; ""; "a dog"] eq_refl) as (rendered & Hcalls & Hlen & _).
  exists rendered. split; [exact Hcalls | exact Hlen].
Defined.

(** ** Shapes along the trajectory *)

Lemma Ok_inj {A} (a b : A) : Ok a = Ok b -> a = b.
Proof. now intros [= ->]. Qed.

Lemma same_shape_singleton (x y : Tensor) :
  same_shape (Tn [x]) (Tn [y]) = same_shape x y.
Proof. cbn. apply andb_true_r. Qed.

(** X18.  When the noise predictor answers a doubled latent with two
    predictions of the shape of that latent, a pass through the loop body
    keeps the shape of the latent; hence every latent of a trajectory has
    the shape of the latent it started from. *)
Theorem trajectory_keeps_shape (pow_half : Q -> Q)
    (m : StableDiffusionXLPipeline) (emb : Tensor) (gs : Q)
    (added : gmap string Tensor) (ys : list Tensor) (i : nat) (x : Tensor) :
  (forall z t c k,
     exists u v, unet m (Tn [z; z]) t c k = Tn [u; v] /\
                 same_shape u z = true /\ same_shape v z = true) ->
  noising_chain (inversion._ddim_loop_body pow_half m emb gs added) i x ys ->
  Forall (fun y => same_shape y x = true) ys.
Proof.
  intros Hunet. revert i x.
  induction ys as [| y ys IH]; intros i x Hchain; [constructor|].
  destruct Hchain as [Hbody Hrest].
  assert (Hy : same_shape y x = true).
  { unfold inversion._ddim_loop_body in Hbody.
    apply bind_Ok_inv in Hbody as (t & _ & Hbody).
    apply bind_Ok_inv in Hbody as (w & Hnoise & Hstep).
    unfold inversion._get_noise_pred in Hnoise.
    change (tcat0 [Tn [x]; Tn [x]]) with (Tn [x; x]) in Hnoise.
    destruct (Hunet x t emb added) as (u & v & Hu & Hsu & Hsv).
    rewrite Hu in Hnoise.
    change (chunk2 (Tn [u; v])) with (Ok (Tn [u], Tn [v])) in Hnoise.
    rewrite bind_Ok in Hnoise. cbv beta iota in Hnoise.
    injection Hnoise as <-.
    assert (Huv : same_shape (Tn [u]) (Tn [v]) = true).
    { rewrite same_shape_singleton.
      eapply same_shape_trans; [exact Hsu | now apply same_shape_sym]. }
    rewrite (guidance_pointwise gs _ _ Huv) in Hstep.
    assert (Hxw : same_shape (Tn [x])
                    (tmap2 (fun a b => (a + gs * (b - a))%Q) (Tn [u]) (Tn [v]))
                  = true).
    { apply same_shape_sym.
      eapply same_shape_trans; [apply same_shape_tmap2, Huv|].
      now rewrite same_shape_singleton. }
    unfold inversion._next_step in Hstep.
    apply bind_Ok_inv in Hstep as (idx & _ & Hstep).
    apply bind_Ok_inv in Hstep as (a & _ & Hstep).
    apply bind_Ok_inv in Hstep as (a' & _ & Hstep).
    rewrite (next_step_pointwise _ _ _ _ _ _ Hxw) in Hstep.
    apply Ok_inj in Hstep.
    pose proof (same_shape_tmap2
                  (fun a0 b => (pow_half a' * ((a0 - pow_half (1 - a) * b)
                                               / pow_half a)
                                + pow_half (1 - a') * b)%Q) _ _ Hxw) as Hs.
    rewrite Hstep, same_shape_singleton in Hs. exact Hs. }
  constructor; [exact Hy|].
  specialize (IH (S i) y Hrest).
  eapply Forall_impl; [exact IH|]. cbn. intros z Hz.
  eapply same_shape_trans; [exact Hz | exact Hy].
Qed.

Lemma trajectory_keeps_shape_witness :
  exists y,
    inversion._ddim_loop_body Demo.pow_half
      (scheduler_set_timesteps Demo.model 6) (Tn []) 2 ∅ 0 (Tn [Demo.zT0])
    = Ok (Tn [y]) /\
    same_shape y Demo.zT0 = true.
Proof.
  assert (H : exists y,
             inversion._ddim_loop_body Demo.pow_half
               (scheduler_set_timesteps Demo.model 6) (Tn []) 2 ∅ 0
               (Tn [Demo.zT0]) = Ok (Tn [y])).
  { eexists. vm_compute. reflexivity. }
  destruct H as [y Hy]. exists y. split; [exact Hy|].
  assert (HF : Forall (fun y' => same_shape y' Demo.zT0 = true) [y]).
  { apply (trajectory_keeps_shape Demo.pow_half
             (scheduler_set_timesteps Demo.model 6) (Tn []) 2 ∅ [y] 0 Demo.zT0).
    - intros z t c k. eexists _, _. split; [reflexivity|].
      split; apply same_shape_tmap.
    - split; [exact Hy | exact I]. }
  now inversion HF.
Defined.

(** ** The files of a run *)

Section Artifacts.

Context {R : Type}.
Variable pow_half : Q -> Q.
Variable env : Collaborators R.
Variable x_cfg : XCfg.
Variable result_path : string.
Variables canvas_width canvas_height : Z.

Lemma guided_synthesis_files (ldm_pipe : StableDiffusionXLPipeline)
    (prompt style_prompt : string) (negative_prompt : NegPrompt)
    (init_img : Image) (zT : Tensor) (cb : StepCallback) (s s' : Self)
    (target : Image) :
  pipeline.guided_synthesis env x_cfg result_path ldm_pipe prompt style_prompt
    negative_prompt init_img zT cb s = Ok (target, s') ->
  exists grid,
    files s'
    = <[path_join (pipeline.sd_sample_dir result_path) "target.png" := target]>
        (<[path_join (pipeline.sd_sample_dir result_path) "samples.png" := grid]>
           (files s)).
Proof.
  unfold pipeline.guided_synthesis. intros H.
  apply bind_Ok_inv in H as (latents & _ & H).
  apply bind_Ok_inv in H as (outputs & _ & H).
  apply bind_Ok_inv in H as (o & _ & H).
  unfold image_open, pipeline.plot_img, pipeline.save_image in H.
  cbn [files write_file] in H.
  change ("target" +:+ ".png") with "target.png" in H.
  rewrite lookup_insert_eq, bind_Ok in H. injection H as <- <-.
  eexists. reflexivity.
Qed.

Lemma style_inversion_files (prompt : string) (negative_prompt : NegPrompt)
    (style_prompt : option string) (init_fpath : string) (s s' : Self)
    (target : Image) :
  pipeline.style_inversion pow_half env x_cfg result_path prompt negative_prompt
    style_prompt init_fpath s = Ok (target, s') ->
  exists grid decoded,
    files s'
    = <[path_join (pipeline.sd_sample_dir result_path) "target.png" := target]>
        (<[path_join (pipeline.sd_sample_dir result_path) "samples.png" := grid]>
           (<[path_join (pipeline.sd_sample_dir result_path) "decode_zT.png"
              := decoded]> (files s))).
Proof.
  unfold pipeline.style_inversion. intros H.
  apply bind_Ok_inv in H as (img & _ & H).
  destruct style_prompt as [p|]; cbn [pipeline.captioning] in H.
  - apply bind_Ok_inv in H as (zts & _ & H).
    apply bind_Ok_inv in H as ([zT cb] & _ & H).
    apply guided_synthesis_files in H as [grid ->]. eexists _, _. reflexivity.
  - apply bind_Ok_inv in H as (zts & _ & H).
    apply bind_Ok_inv in H as ([zT cb] & _ & H).
    apply guided_synthesis_files in H as [grid ->]. eexists _, _. reflexivity.
Qed.

(** X19.  A run that completes removes no file and leaves behind the two
    pictures of the initial state, the stage-1 result, the decoded start
    latent, the generated samples with the chosen target, and the final
    render, which is the picture of the renderer it returns. *)
Theorem painterly_rendering_artifacts (text_prompt : string)
    (negative_prompt : NegPrompt) (style_fpath : string)
    (style_prompt : option string) (s s' : Self) (r : R) :
  pipeline.painterly_rendering pow_half env x_cfg result_path canvas_width
    canvas_height text_prompt negative_prompt style_fpath style_prompt s
  = Ok (r, s') ->
  dom (files s) ⊆ dom (files s') /\
  Forall (fun path => is_Some (files s' !! path))
    [ style_fpath;
      path_join (pipeline.style_dir result_path) "style_image_input.png";
      path_join (pipeline.style_dir result_path) "stroke_init_style.png";
      path_join result_path "style_result.png";
      path_join (pipeline.sd_sample_dir result_path) "decode_zT.png";
      path_join (pipeline.sd_sample_dir result_path) "samples.png";
      path_join (pipeline.sd_sample_dir result_path) "target.png";
      path_join result_path "final_render.png" ] /\
  files s' !! path_join result_path "final_render.png"
  = Some (to_png env (get_image env r)).
Proof.
  unfold pipeline.painterly_rendering. intros H.
  apply bind_Ok_inv in H as (style_tensor & Hload & H).
  assert (Hstyle : is_Some (files s !! style_fpath)).
  { unfold pipeline.load_img_to_tensor in Hload.
    destruct (decide (is_Some (files s !! style_fpath))); [assumption|discriminate]. }
  destruct (init_canvas env (random_init x_cfg) (new_painter env style_tensor))
    as [renderer canvas].
  match type of H with
  | context [pipeline.brushstroke_imitation _ _ _ ?r0 ?s0] =>
      destruct (brushstroke_imitation_state env x_cfg result_path r0 s0)
        as (r1 & states & Hrun & _ & _)
  end.
  rewrite Hrun in H. clear Hrun.
  unfold pipeline.synthesis_with_style_supervision in H.
  apply bind_Ok_inv in H as ([target s2] & Hinv & H).
  apply style_inversion_files in Hinv as (grid & decoded & Hfiles2).
  cbn [files pipeline.plot_img write_file] in Hfiles2.
  change ("stroke_init_style" +:+ ".png") with "stroke_init_style.png" in Hfiles2.
  change ("style_image_input" +:+ ".png") with "style_image_input.png" in Hfiles2.
  unfold pipeline.synthesis_optimization in H.
  apply bind_Ok_inv in H as ([r' s3] & Hrun2 & H).
  apply synthesis_iterations_returned in Hrun2 as (states2 & -> & _).
  injection H as <- <-.
  cbn [files pipeline.plot_img write_file set_step].
  change ("final_render" +:+ ".png") with "final_render.png".
  rewrite Hfiles2.
  rewrite <- elem_of_dom in Hstyle.
  split; [|split].
  - rewrite !dom_insert_L. set_solver.
  - repeat (apply Forall_cons; split);
      [ | | | | | | | | apply Forall_nil; exact I ];
      apply elem_of_dom; rewrite !dom_insert_L; set_solver.
  - apply lookup_insert_eq.
Qed.

End Artifacts.

Lemma painterly_rendering_artifacts_witness :
  exists (r : Tensor * Tensor) (s' : Self),
    Demo.run (Demo.cfg 1 1 "ssim" 1 "pos") None = Ok (r, s') /\
    dom (files Demo.self0) ⊆ dom (files s') /\
    files s' !! "out/final_render.png" = Some (to_png Demo.env (get_image Demo.env r)).
Proof.
  assert (H : exists r s',
             Demo.run (Demo.cfg 1 1 "ssim" 1 "pos") None = Ok (r, s')).
  { eexists _, _. vm_compute. reflexivity. }
  destruct H as (r & s' & Hrun). exists r, s'. split; [exact Hrun|].
  destruct (painterly_rendering_artifacts Demo.pow_half Demo.env
              (Demo.cfg 1 1 "ssim" 1 "pos") "out" 1 1 "a red boat"
              (NegStr "blurry") "style.png" None Demo.self0 s' r Hrun)
    as (Hdom & _ & Hfinal).
  split; [exact Hdom | exact Hfinal].
Defined.
